(** * Shallow embedding of [monitor.py] (SAR ticket availability monitor)

    The model follows the Python source function by function:
    - [build_search_url] and [generate_dates] are pure and become Rocq
      functions (the latter in the [result] error type, since [strptime]
      raises [ValueError] and [datetime + timedelta] raises [OverflowError]);
    - [check_availability], [send_email] and the scanning loops of [main]
      become computations in a small trace-and-exception monad [M]: every
      Playwright call, pacing wait, print and SMTP connection is recorded as
      an [event], and Python exceptions are values of [py_exn].

    Strings are Rocq [string]s (byte strings); the non-ASCII literals of the
    source (Arabic phrases, arrows, emoji) are written as their UTF-8 bytes.
    Where Python counts or classifies characters (slices, [len], [strip],
    [strptime]) the model groups the bytes into UTF-8 characters. *)

From Stdlib Require Import String Ascii List ZArith Bool Lia Sorting.Sorted.
Import ListNotations.
Open Scope string_scope.

(** ** Python runtime fragment *)

(** The exceptions that the modelled code can see. *)
Inductive py_exn :=
| ValueError (msg : string)
| OverflowError (msg : string)
| PlaywrightError (msg : string)   (* playwright Error / TimeoutError *)
| SMTPError (msg : string)         (* smtplib.SMTPException or OSError *).

Definition exn_str (e : py_exn) : string :=
  match e with
  | ValueError m | OverflowError m | PlaywrightError m | SMTPError m => m
  end.

(** A value or a raised exception. *)
Inductive result (A : Type) :=
| Ok (a : A)
| Err (e : py_exn).
Arguments Ok {A} a.
Arguments Err {A} e.

(** Observable effects. *)
Inductive event :=
| EGoto (url : string)                 (* page.goto(url, ...) *)
| EWait (ms : nat)                     (* page.wait_for_timeout(ms) *)
| EQuery (selector : string)           (* page.query_selector_all(selector) *)
| EPrint (line : string)               (* print(line) *)
| ESmtpConnect (host : string) (port : nat). (* smtplib.SMTP_SSL / SMTP *)

(** Computations: they append events to the trace and either return a
    value or raise. *)
Definition M (A : Type) := list event -> result A * list event.

Definition ret {A} (a : A) : M A := fun tr => (Ok a, tr).

Definition bind {A B} (m : M A) (k : A -> M B) : M B :=
  fun tr => match m tr with
            | (Ok a, tr') => k a tr'
            | (Err e, tr') => (Err e, tr')
            end.

Definition lift {A} (r : result A) : M A := fun tr => (r, tr).

Definition emit (ev : event) : M unit := fun tr => (Ok tt, (tr ++ [ev])%list).

(** [try: body except Exception as e: handler(e)] *)
Definition try_except {A} (body : M A) (handler : py_exn -> M A) : M A :=
  fun tr => match body tr with
            | (Err e, tr') => handler e tr'
            | r => r
            end.

Notation "x <- m ;; k" := (bind m (fun x => k))
  (at level 61, m at next level, right associativity).
Notation "m ;; k" := (bind m (fun _ : unit => k))
  (at level 61, right associativity).

Definition print (s : string) : M unit := emit (EPrint s).

(** ASCII lower-casing of [str.lower]: bytes outside [A-Z] are kept (the
    Arabic indicators have no case). *)
Definition lower_ascii (c : ascii) : ascii :=
  let n := nat_of_ascii c in
  if ((65 <=? n) && (n <=? 90))%nat then ascii_of_nat (n + 32)%nat else c.

Fixpoint lower (s : string) : string :=
  match s with
  | EmptyString => EmptyString
  | String c r => String (lower_ascii c) (lower r)
  end.

(** [needle in hay] for Python strings. *)
Fixpoint contains (needle hay : string) : bool :=
  if String.prefix needle hay then true
  else match hay with
       | EmptyString => false
       | String _ r => contains needle r
       end.

(** ** Python [str] on its UTF-8 bytes

    A Python string is held as its UTF-8 encoding; a character is a lead
    byte with the continuation bytes ([10xxxxxx]) that follow it. *)

Definition is_cont (b : ascii) : bool :=
  let n := nat_of_ascii b in ((128 <=? n) && (n <? 192))%nat.

(** [len(s)] *)
Fixpoint py_len (s : string) : nat :=
  match s with
  | EmptyString => 0
  | String b r => (if is_cont b then 0 else 1) + py_len r
  end.

(** [s[:n]]: the first [n] characters. *)
Fixpoint py_take (n : nat) (s : string) : string :=
  match s with
  | EmptyString => EmptyString
  | String b r =>
      if is_cont b then String b (py_take n r)
      else match n with
           | O => EmptyString
           | S n' => String b (py_take n' r)
           end
  end.

(** The characters of [s], each as its bytes. *)
Fixpoint py_chars (s : string) : list string :=
  match s with
  | EmptyString => []
  | String b r =>
      match py_chars r with
      | (String c _ as ch) :: rest =>
          if is_cont c then String b ch :: rest else String b EmptyString :: ch :: rest
      | chs => String b EmptyString :: chs
      end
  end.

(** [ord(ch)]: the code point of a character from its UTF-8 bytes. *)
Definition ord (ch : string) : Z :=
  let v b := Z.of_nat (nat_of_ascii b) in
  match list_ascii_of_string ch with
  | [b0] => v b0
  | [b0; b1] => Z.lor (Z.shiftl (Z.land (v b0) 31) 6) (Z.land (v b1) 63)
  | [b0; b1; b2] =>
      Z.lor (Z.shiftl (Z.land (v b0) 15) 12)
            (Z.lor (Z.shiftl (Z.land (v b1) 63) 6) (Z.land (v b2) 63))
  | [b0; b1; b2; b3] =>
      Z.lor (Z.shiftl (Z.land (v b0) 7) 18)
            (Z.lor (Z.shiftl (Z.land (v b1) 63) 12)
                   (Z.lor (Z.shiftl (Z.land (v b2) 63) 6) (Z.land (v b3) 63)))
  | _ => -1
  end%Z.

(** The digit zeros of the Unicode category Nd (Unicode 14.0, as in
    Python 3.11); each is followed by the digits one to nine. These are
    the characters of [\d] in a [str] regex, and the digits [int] reads. *)
Definition nd_zeros : list Z :=
  [0x30; 0x660; 0x6f0; 0x7c0; 0x966; 0x9e6; 0xa66; 0xae6;
   0xb66; 0xbe6; 0xc66; 0xce6; 0xd66; 0xde6; 0xe50; 0xed0;
   0xf20; 0x1040; 0x1090; 0x17e0; 0x1810; 0x1946; 0x19d0; 0x1a80;
   0x1a90; 0x1b50; 0x1bb0; 0x1c40; 0x1c50; 0xa620; 0xa8d0; 0xa900;
   0xa9d0; 0xa9f0; 0xaa50; 0xabf0; 0xff10; 0x104a0; 0x10d30; 0x11066;
   0x110f0; 0x11136; 0x111d0; 0x112f0; 0x11450; 0x114d0; 0x11650; 0x116c0;
   0x11730; 0x118e0; 0x11950; 0x11c50; 0x11d50; 0x11da0; 0x16a60; 0x16ac0;
   0x16b50; 0x1d7ce; 0x1d7d8; 0x1d7e2; 0x1d7ec; 0x1d7f6; 0x1e140; 0x1e2f0;
   0x1e950; 0x1fbf0]%Z.

(** [unicodedata.decimal(ch, None)] *)
Definition decimal (ch : string) : option Z :=
  let c := ord ch in
  match find (fun z => (z <=? c) && (c <=? z + 9))%Z nd_zeros with
  | Some z => Some (c - z)%Z
  | None => None
  end.

(** The code points for which [str.isspace()] holds (Python 3.11); these
    are what [str.strip()] removes. *)
Definition space_points : list Z :=
  [0x9; 0xa; 0xb; 0xc; 0xd; 0x1c; 0x1d; 0x1e;
   0x1f; 0x20; 0x85; 0xa0; 0x1680; 0x2000; 0x2001; 0x2002;
   0x2003; 0x2004; 0x2005; 0x2006; 0x2007; 0x2008; 0x2009; 0x200a;
   0x2028; 0x2029; 0x202f; 0x205f; 0x3000]%Z.

Definition is_space_char (ch : string) : bool :=
  existsb (Z.eqb (ord ch)) space_points.

(** ** [build_search_url] *)

Definition base_url := "https://tickets.sar.com.sa/select-trip".

(** The dict [params] in insertion order. *)
Definition params (from_station to_station date direction : string)
  : list (string * string) :=
  [("DepartureStation", from_station);
   ("ArrivalStation", to_station);
   ("DepartureDateString", date);
   ("AdultCount", "1");
   ("ChildCount", "0");
   ("InfantCount", "0");
   ("DisabledCount", "0");
   ("CarerCount", "0");
   ("passengersCount", "1");
   ("Lang", "en");
   ("serviceType", "1");
   ("WithCarCargo", "false");
   ("TripDirection", direction)].

(** ["&".join(f"{k}={v}" for k, v in params.items())] *)
Definition join_query (ps : list (string * string)) : string :=
  String.concat "&" (map (fun kv => fst kv ++ "=" ++ snd kv) ps).

Definition build_search_url (from_station to_station date direction : string)
  : string :=
  base_url ++ "?" ++ join_query (params from_station to_station date direction).

(** ** Dates: [datetime.strptime], [strftime], [+ timedelta(days=1)] *)

Open Scope Z_scope.

Record datetime := mk_datetime { year : Z; month : Z; day : Z }.

Definition MINYEAR : Z := 1.
Definition MAXYEAR : Z := 9999.

Definition is_leap (y : Z) : bool :=
  (Z.modulo y 4 =? 0) && (negb (Z.modulo y 100 =? 0) || (Z.modulo y 400 =? 0)).

Definition days_in_month (y m : Z) : Z :=
  if m =? 2 then (if is_leap y then 29 else 28)
  else if (m =? 4) || (m =? 6) || (m =? 9) || (m =? 11) then 30
  else 31.

(** Comparison of two datetimes (all time fields are zero here):
    lexicographic on (year, month, day). *)
Definition dt_le (a b : datetime) : bool :=
  (year a <? year b)
  || ((year a =? year b)
      && ((month a <? month b) || ((month a =? month b) && (day a <=? day b)))).

(** [current + timedelta(days=1)]: CPython's [normalize_y_m_d] for a day
    one past the end of its month moves to the first of the next month,
    then rejects a year outside [MINYEAR, MAXYEAR]. *)
Definition add_one_day (dt : datetime) : result datetime :=
  let y := year dt in let m := month dt in let d := day dt + 1 in
  if d <=? days_in_month y m then Ok (mk_datetime y m d)
  else if m + 1 <=? 12 then Ok (mk_datetime y (m + 1) 1)
  else if y + 1 <=? MAXYEAR then Ok (mk_datetime (y + 1) 1 1)
  else Err (OverflowError "date value out of range").

(** Decimal digits of [n], zero padded to [width]. *)
Fixpoint digits_rev (fuel : nat) (n : Z) : list ascii :=
  match fuel with
  | O => []
  | S f => ascii_of_nat (48 + Z.to_nat (Z.modulo n 10))%nat :: digits_rev f (Z.div n 10)
  end.

Definition zpad (width : nat) (n : Z) : string :=
  string_of_list_ascii (rev (digits_rev width n)).

(** [strftime("%Y-%m-%d")]: glibc writes the year with no padding (year
    999 gives ["999"]), the month and the day on two digits. *)
Definition year_str (y : Z) : string :=
  if y <? 10 then zpad 1 y
  else if y <? 100 then zpad 2 y
  else if y <? 1000 then zpad 3 y
  else zpad 4 y.

Definition strftime (dt : datetime) : string :=
  year_str (year dt) ++ "-" ++ zpad 2 (month dt) ++ "-" ++ zpad 2 (day dt).

(** The character [ch] is the ASCII character [c]. *)
Definition is_char (c : ascii) (ch : string) : bool :=
  String.eqb ch (String c EmptyString).

(** The character [ch] is an ASCII character in [lo .. hi]. *)
Definition char_in (lo hi : ascii) (ch : string) : bool :=
  match ch with
  | String b EmptyString =>
      ((nat_of_ascii lo <=? nat_of_ascii b) && (nat_of_ascii b <=? nat_of_ascii hi))%nat
  | _ => false
  end.

(** The value of an ASCII digit. *)
Definition ascii_digit (ch : string) : Z := ord ch - 48.

(** The regex of [_strptime] for [%m]: [1[0-2]|0[1-9]|[1-9]], first
    alternative that matches; returns the value and the rest. *)
Definition match_m (s : list string) : option (Z * list string) :=
  match s with
  | c1 :: c2 :: r =>
      if is_char "1" c1 && char_in "0" "2" c2 then Some (10 + ascii_digit c2, r)
      else if is_char "0" c1 && char_in "1" "9" c2 then Some (ascii_digit c2, r)
      else if char_in "1" "9" c1 then Some (ascii_digit c1, c2 :: r)
      else None
  | [c1] => if char_in "1" "9" c1 then Some (ascii_digit c1, []) else None
  | [] => None
  end.

(** [%d]: [3[01]|[12]\d|0[1-9]|[1-9]| [1-9]], where [\d] is any Unicode
    decimal digit. *)
Definition match_d (s : list string) : option (Z * list string) :=
  match s with
  | c1 :: c2 :: r =>
      if is_char "3" c1 && char_in "0" "1" c2 then Some (30 + ascii_digit c2, r)
      else match (if char_in "1" "2" c1 then decimal c2 else None) with
           | Some v => Some (10 * ascii_digit c1 + v, r)
           | None =>
               if is_char "0" c1 && char_in "1" "9" c2 then Some (ascii_digit c2, r)
               else if char_in "1" "9" c1 then Some (ascii_digit c1, c2 :: r)
               else if is_char " " c1 && char_in "1" "9" c2 then Some (ascii_digit c2, r)
               else None
           end
  | [c1] => if char_in "1" "9" c1 then Some (ascii_digit c1, []) else None
  | [] => None
  end.

(** [%Y]: [\d\d\d\d], read by [int]. *)
Definition match_Y (s : list string) : option (Z * list string) :=
  match s with
  | a :: b :: c :: d :: r =>
      match decimal a, decimal b, decimal c, decimal d with
      | Some a', Some b', Some c', Some d' => Some (1000 * a' + 100 * b' + 10 * c' + d', r)
      | _, _, _, _ => None
      end
  | _ => None
  end.

(** [datetime.strptime(s, "%Y-%m-%d")]: the format regex is matched on the
    characters of [s] from the start, leftover text is "unconverted data",
    and the date is then checked by [datetime_date(year, month, day)]. *)
Definition strptime (s : string) : result datetime :=
  let nomatch := Err (ValueError ("time data '" ++ s ++ "' does not match format '%Y-%m-%d'")) in
  match match_Y (py_chars s) with
  | Some (y, c1 :: r1) =>
      if negb (is_char "-" c1) then nomatch else
      match match_m r1 with
      | Some (m, c2 :: r2) =>
          if negb (is_char "-" c2) then nomatch else
          match match_d r2 with
          | Some (d, r3) =>
              match r3 with
              | [] =>
                  if y <? MINYEAR then Err (ValueError "year 0 is out of range")
                  else if days_in_month y m <? d then Err (ValueError "day is out of range for month")
                  else Ok (mk_datetime y m d)
              | _ => Err (ValueError ("unconverted data remains: " ++ String.concat EmptyString r3))
              end
          | None => nomatch
          end
      | _ => nomatch
      end
  | _ => nomatch
  end.

(** An upper bound on the iterations of the [while] loop: every
    [add_one_day] strictly increases [dt_key]. *)
Definition dt_key (dt : datetime) : Z := year dt * 372 + month dt * 31 + day dt.

Definition loop_bound (start end_ : datetime) : nat :=
  Z.to_nat (dt_key end_ - dt_key start + 1).

(** [while current <= end: dates.append(current.strftime(...)); current += timedelta(days=1)] *)
Fixpoint gen_loop (fuel : nat) (current end_ : datetime) (dates : list string)
  : result (list string) :=
  match fuel with
  | O => Ok dates
  | S fuel' =>
      if dt_le current end_ then
        let dates' := (dates ++ [strftime current])%list in
        match add_one_day current with
        | Ok next => gen_loop fuel' next end_ dates'
        | Err e => Err e
        end
      else Ok dates
  end.

Definition generate_dates (start_date end_date : string) : result (list string) :=
  match strptime start_date with
  | Err e => Err e
  | Ok start =>
      match strptime end_date with
      | Err e => Err e
      | Ok end_ => gen_loop (loop_bound start end_) start end_ []
      end
  end.

(** [date.weekday()] (Monday = 0): [(toordinal() + 6) % 7], with
    [toordinal] as in CPython's [ymd_to_ord]. *)
Definition days_before_year (y : Z) : Z :=
  let y1 := y - 1 in y1 * 365 + y1 / 4 - y1 / 100 + y1 / 400.

Fixpoint days_before_month_aux (y : Z) (k : nat) : Z :=
  match k with
  | O => 0
  | S k' => days_before_month_aux y k' + days_in_month y (Z.of_nat k)
  end.

Definition days_before_month (y m : Z) : Z := days_before_month_aux y (Z.to_nat (m - 1)).

Definition toordinal (dt : datetime) : Z :=
  days_before_year (year dt) + days_before_month (year dt) (month dt) + day dt.

Definition weekday (dt : datetime) : Z := Z.modulo (toordinal dt + 6) 7.

(** Decimal rendering of a count, as [f"{n}"]. *)
Fixpoint str_Z_aux (fuel : nat) (n : Z) (acc : string) : string :=
  match fuel with
  | O => acc
  | S f =>
      let acc' := String (ascii_of_nat (48 + Z.to_nat (Z.modulo n 10))%nat) acc in
      if n <? 10 then acc' else str_Z_aux f (Z.div n 10) acc'
  end.

Definition str_nat (n : nat) : string := str_Z_aux (S n) (Z.of_nat n) EmptyString.

Close Scope Z_scope.

(** ** [check_availability] *)

(** An element handle; [inner_text()] may raise. *)
Record element := { el_inner_text : result string }.

(** What the Playwright page answers once it has been sent to a URL:
    the outcome of [goto], of [content()], of [inner_text("body")], and of
    [query_selector_all] for each selector. [wait_for_timeout] on the open
    page does not fail. *)
Record page_view := {
  pv_goto : result unit;
  pv_content : result string;
  pv_body_text : result string;
  pv_query : string -> result (list element)
}.

Definition page_goto (page : page_view) (url : string) : M unit :=
  emit (EGoto url) ;; lift (pv_goto page).

Definition page_wait_for_timeout (ms : nat) : M unit := emit (EWait ms).

Definition page_content (page : page_view) : M string := lift (pv_content page).

Definition page_inner_text_body (page : page_view) : M string := lift (pv_body_text page).

Definition page_query_selector_all (page : page_view) (sel : string) : M (list element) :=
  emit (EQuery sel) ;; lift (pv_query page sel).

(** The dict returned for an available date; ["details"] may be absent. *)
Record trip_info := {
  ti_date : string;
  ti_route : string;
  ti_url : string;
  ti_count : nat;
  ti_details : option string
}.

Definition no_availability_indicators : list string :=
  ["no trips available";
   "no trains available";
   "no results";
   "لا توجد رحلات";
   "غير متوفر";
   "sold out";
   "no seats available"].

Definition trip_selectors : list string :=
  [".trip-card";
   ".journey-card";
   ".train-result";
   "[class*='trip']";
   "[class*='journey']";
   ".available-trip"].

Definition book_selector : string :=
  "button:has-text('Book'), button:has-text('احجز'), a:has-text('Book')".

Definition price_selector : string :=
  "[class*='price'], [class*='fare'], .sar-price".

(** [for indicator in ...: if indicator.lower() in page_text.lower(): return None] *)
Fixpoint has_indicator (inds : list string) (page_text : string) : bool :=
  match inds with
  | [] => false
  | ind :: rest => if contains (lower ind) (lower page_text) then true
                   else has_indicator rest page_text
  end.

(** One iteration of [for selector in trip_selectors], including its own
    [try ... except: continue]; [Some info] is [return trip_info]. *)
Definition selector_step (page : page_view) (url route_name date sel : string)
  : M (option trip_info) :=
  try_except
    (trips <- page_query_selector_all page sel ;;
     match trips with
     | [] => ret None
     | first_trip :: _ =>
         let details :=
           match el_inner_text first_trip with
           | Ok trip_text => Some (py_take 500 trip_text)
           | Err _ => None          (* except: pass *)
           end in
         ret (Some {| ti_date := date; ti_route := route_name; ti_url := url;
                      ti_count := length trips; ti_details := details |})
     end)
    (fun _ => ret None).

Fixpoint try_selectors (page : page_view) (url route_name date : string)
  (sels : list string) : M (option trip_info) :=
  match sels with
  | [] => ret None
  | sel :: rest =>
      r <- selector_step page url route_name date sel ;;
      match r with
      | Some info => ret (Some info)
      | None => try_selectors page url route_name date rest
      end
  end.

(** The statements of the [try] body of [check_availability] that follow
    [page.goto]. *)
Definition classify_loaded_page (page : page_view) (url route_name date : string)
  : M (option trip_info) :=
  page_wait_for_timeout 3000 ;;
  _ <- page_content page ;;
  page_text <- page_inner_text_body page ;;
  if has_indicator no_availability_indicators page_text then ret None
  else
    found <- try_selectors page url route_name date trip_selectors ;;
    match found with
    | Some info => ret (Some info)
    | None =>
        book_buttons <- page_query_selector_all page book_selector ;;
        match book_buttons with
        | _ :: _ =>
            ret (Some {| ti_date := date; ti_route := route_name; ti_url := url;
                         ti_count := length book_buttons;
                         ti_details := Some "Book buttons found - tickets likely available" |})
        | [] =>
            price_elements <- page_query_selector_all page price_selector ;;
            match price_elements with
            | _ :: _ =>
                ret (Some {| ti_date := date; ti_route := route_name; ti_url := url;
                             ti_count := length price_elements;
                             ti_details := Some "Price elements found - tickets likely available" |})
            | [] => ret None
            end
        end
    end.

Definition check_availability (page : page_view) (url route_name date : string)
  : M (option trip_info) :=
  try_except
    (print ("  Checking " ++ route_name ++ " on " ++ date ++ "...") ;;
     page_goto page url ;;
     classify_loaded_page page url route_name date)
    (fun e => print ("    Error checking " ++ date ++ ": " ++ exn_str e) ;; ret None).

(** ** The scanning loops of [main] *)

Record route_config := {
  from_station : string;
  to_station : string;
  from_name : string;
  to_name : string;
  start_date : string;
  end_date : string;
  direction : string
}.

Definition CONFIG_outbound : route_config :=
  {| from_station := "RIY"; to_station := "QUR"; from_name := "Riyadh";
     to_name := "Qurayyat"; start_date := "2025-03-03"; end_date := "2025-03-20";
     direction := "N" |}.

Definition CONFIG_return : route_config :=
  {| from_station := "QUR"; to_station := "RIY"; from_name := "Qurayyat";
     to_name := "Riyadh"; start_date := "2025-03-23"; end_date := "2025-04-02";
     direction := "N" |}.

Definition route_name (rc : route_config) : string :=
  from_name rc ++ " → " ++ to_name rc.

Definition url_of (rc : route_config) (date : string) : string :=
  build_search_url (from_station rc) (to_station rc) date (direction rc).

(** The site: the page shown after navigating to a URL. *)
Definition site := string -> page_view.

(** [for date in dates: ...; await page.wait_for_timeout(2000)], with
    [available_trips] threaded through. *)
Fixpoint scan_dates (web : site) (rc : route_config) (dates : list string)
  (available_trips : list trip_info) : M (list trip_info) :=
  match dates with
  | [] => ret available_trips
  | date :: rest =>
      let url := url_of rc date in
      result <- check_availability (web url) url (route_name rc) date ;;
      available_trips' <-
        match result with
        | Some info =>
            print ("    ✅ AVAILABLE on " ++ date ++ "!") ;;
            ret (available_trips ++ [info])%list
        | None =>
            print ("    ❌ Not available on " ++ date) ;;
            ret available_trips
        end ;;
      page_wait_for_timeout 2000 ;;
      scan_dates web rc rest available_trips'
  end.

Definition nl : string := String (ascii_of_nat 10) EmptyString.

(** One of the two blocks of [main]: header, [generate_dates], loop. *)
Definition scan_route (web : site) (header : string) (rc : route_config)
  (available_trips : list trip_info) : M (list trip_info) :=
  print (nl ++ "📍 Checking " ++ header) ;;
  print ("   Date range: " ++ start_date rc ++ " to " ++ end_date rc) ;;
  dates <- lift (generate_dates (start_date rc) (end_date rc)) ;;
  scan_dates web rc dates available_trips.

Definition scan_all (web : site) : M (list trip_info) :=
  trips <- scan_route web "OUTBOUND: Riyadh → Qurayyat" CONFIG_outbound [] ;;
  scan_route web "RETURN: Qurayyat → Riyadh" CONFIG_return trips.

(** ** [send_email] *)

(** [os.environ]: the three variables read by [send_email]. *)
Record environ := {
  SENDER_EMAIL : option string;
  SENDER_PASSWORD : option string;
  NOTIFY_EMAIL : option string
}.

(** Python truthiness of [os.environ.get(...)]: [None] and the empty string are false. *)
Definition truthy (o : option string) : bool :=
  match o with Some (String _ _) => true | _ => false end.

Definition opt_str (o : option string) : string :=
  match o with Some v => v | None => "None" end.

(** The outcome of each [with smtplib.... as server:] block (connecting,
    [starttls] for port 587, [login] and [sendmail]). *)
Record smtp_outcomes := {
  ssl_session : result unit;   (* SMTP_SSL("smtp.gmail.com", 465) *)
  tls_session : result unit    (* SMTP("smtp.gmail.com", 587) + starttls *)
}.

(** [os.environ.get("NOTIFY_EMAIL", sender_email)] *)
Definition notify_email_of (env : environ) : option string :=
  match NOTIFY_EMAIL env with Some v => Some v | None => SENDER_EMAIL env end.

Fixpoint print_trips (trips : list trip_info) : M unit :=
  match trips with
  | [] => ret tt
  | trip :: rest =>
      print (nl ++ "🎫 TICKETS AVAILABLE!") ;;
      print ("   Route: " ++ ti_route trip) ;;
      print ("   Date: " ++ ti_date trip) ;;
      print ("   URL: " ++ ti_url trip) ;;
      match ti_details trip with
      | Some det => print ("   Details: " ++ py_take 200 det)
      | None => ret tt
      end ;;
      print_trips rest
  end.

Definition smtp_host : string := "smtp.gmail.com".

(** The message itself (subject, HTML and text bodies, [MIMEMultipart]) is
    built from the trips' route, date and url keys, which every dict made
    by [check_availability] has; only the sending is modelled. *)
Definition send_email (env : environ) (smtp : smtp_outcomes)
  (available_trips : list trip_info) : M unit :=
  let sender_email := SENDER_EMAIL env in
  let sender_password := SENDER_PASSWORD env in
  let notify_email := notify_email_of env in
  if negb (truthy sender_email) || negb (truthy sender_password) then
    print "Email credentials not configured. Printing results instead:" ;;
    print_trips available_trips
  else
    try_except
      (emit (ESmtpConnect smtp_host 465) ;;
       lift (ssl_session smtp) ;;
       print ("✅ Email sent successfully to " ++ opt_str notify_email))
      (fun e =>
         print ("❌ Failed to send email: " ++ exn_str e) ;;
         try_except
           (emit (ESmtpConnect smtp_host 587) ;;
            lift (tls_session smtp) ;;
            print ("✅ Email sent successfully (TLS) to " ++ opt_str notify_email))
           (fun e2 => print ("❌ Failed to send email (TLS): " ++ exn_str e2))).

(** ** [main] *)

Definition rule : string := string_of_list_ascii (repeat "="%char 60).

(** [main] once the browser session is open; [started] and [finished]
    stand for [datetime.now().isoformat()]. Launching and closing the
    browser are not modelled. *)
Definition main (web : site) (env : environ) (smtp : smtp_outcomes)
  (started finished : string) : M unit :=
  print rule ;;
  print "SAR Ticket Availability Monitor" ;;
  print ("Started at: " ++ started) ;;
  print rule ;;
  available_trips <- scan_all web ;;
  print (nl ++ rule) ;;
  print "SUMMARY" ;;
  print rule ;;
  match available_trips with
  | _ :: _ =>
      print (nl ++ "🎉 Found " ++ str_nat (length available_trips) ++ " available trip(s)!") ;;
      send_email env smtp available_trips
  | [] => print (nl ++ "😔 No tickets available at this time.")
  end ;;
  print (nl ++ "Finished at: " ++ finished).

(** ** Views of a run used in the statements *)

(** The URLs of the [page.goto] calls of a trace, in order. *)
Fixpoint gotos (tr : list event) : list string :=
  match tr with
  | [] => []
  | EGoto u :: r => u :: gotos r
  | _ :: r => gotos r
  end.

(** The fetches and the 2000 ms pacing waits of a trace, in order. *)
Definition pacing_view (tr : list event) : list event :=
  filter (fun ev => match ev with
                    | EGoto _ => true
                    | EWait ms => Nat.eqb ms 2000
                    | _ => false
                    end) tr.

(** The ports of the SMTP sessions opened. *)
Fixpoint smtp_ports (tr : list event) : list nat :=
  match tr with
  | [] => []
  | ESmtpConnect _ port :: r => port :: smtp_ports r
  | _ :: r => smtp_ports r
  end.

Definition dates_of (rc : route_config) : list string :=
  match generate_dates (start_date rc) (end_date rc) with
  | Ok l => l
  | Err _ => []
  end.

(** Every (route, date) probed by [main], in order. *)
Definition all_dates : list (route_config * string) :=
  map (pair CONFIG_outbound) (dates_of CONFIG_outbound)
  ++ map (pair CONFIG_return) (dates_of CONFIG_return).

(** The classification of one date on its own. *)
Definition classify_date (web : site) (rc : route_config) (date : string)
  : option trip_info :=
  match fst (check_availability (web (url_of rc date)) (url_of rc date) (route_name rc) date []) with
  | Ok r => r
  | Err _ => None
  end.

Definition option_list {A} (o : option A) : list A :=
  match o with Some a => [a] | None => [] end.

(** [trips and len(trips) > 0] is false for every query of the page. *)
Definition no_positive_match (page : page_view) : bool :=
  forallb (fun sel => match pv_query page sel with
                      | Ok (_ :: _) => false
                      | _ => true
                      end)
          (trip_selectors ++ [book_selector; price_selector]).

(** [page] with its body text replaced by [t]. *)
Definition with_body (page : page_view) (t : string) : page_view :=
  {| pv_goto := pv_goto page; pv_content := pv_content page;
     pv_body_text := Ok t; pv_query := pv_query page |}.

Definition no_amp (s : string) : bool := negb (contains "&" s).

(** Validity of a date as [datetime] checks it. *)
Definition valid_dt (dt : datetime) : Prop :=
  (MINYEAR <= year dt <= MAXYEAR /\ 1 <= month dt <= 12
   /\ 1 <= day dt <= days_in_month (year dt) (month dt))%Z.

Definition dt_max : datetime := mk_datetime 9999 12 31.

(** A page that loads, shows [body] and answers every selector with [els]. *)
Definition page_with (body : string) (els : list element) : page_view :=
  {| pv_goto := Ok tt; pv_content := Ok "<html></html>"; pv_body_text := Ok body;
     pv_query := fun _ => Ok els |}.

(** A page whose navigation times out (and every later call with it). *)
Definition failing_page (msg : string) : page_view :=
  {| pv_goto := Err (PlaywrightError msg); pv_content := Err (PlaywrightError msg);
     pv_body_text := Err (PlaywrightError msg); pv_query := fun _ => Err (PlaywrightError msg) |}.

(** A site on which fetching [bad] times out and every other URL shows [other]. *)
Definition site_failing_at (bad : string) (other : page_view) : site :=
  fun u => if string_dec u bad then failing_page "Timeout 30000ms exceeded" else other.


(** ** Views used by the further properties *)

Definition trip_fields_ok (date route url : string) (info : trip_info) : Prop :=
  ti_date info = date /\ ti_route info = route /\ ti_url info = url
  /\ (1 <= ti_count info)%nat
  /\ (forall d, ti_details info = Some d -> (py_len d <= 500)%nat).

Definition with_query (page : page_view) (sel : string) (r : result (list element)) : page_view :=
  {| pv_goto := pv_goto page; pv_content := pv_content page;
     pv_body_text := pv_body_text page;
     pv_query := fun s => if string_dec s sel then r else pv_query page s |}.

Definition dig (k : Z) : ascii := ascii_of_nat (48 + Z.to_nat k)%nat.

Definition found_trips (web : site) : list trip_info :=
  flat_map (fun p => option_list (classify_date web (fst p) (snd p))) all_dates.

Definition no_smtp (ev : event) : Prop :=
  match ev with ESmtpConnect _ _ => False | _ => True end.

Definition trip_lines (trip : trip_info) : list event :=
  [EPrint (nl ++ "🎫 TICKETS AVAILABLE!");
   EPrint ("   Route: " ++ ti_route trip);
   EPrint ("   Date: " ++ ti_date trip);
   EPrint ("   URL: " ++ ti_url trip)]
  ++ match ti_details trip with
     | Some det => [EPrint ("   Details: " ++ py_take 200 det)]
     | None => []
     end.

(** ** [discover_station_codes] *)

(** An [<option>] handle: [get_attribute("value")] and [inner_text()] may raise. *)
Record option_handle := {
  opt_get_attribute_value : result (option string);
  opt_inner_text : result string
}.

(** A select handle: [query_selector_all("option")] may raise. *)
Record select_handle := { sel_query_options : result (list option_handle) }.

(** What the booking page answers: [goto] and
    [query_selector_all("select, [role='listbox']")]. *)
Record booking_view := {
  bk_goto : result unit;
  bk_query_selects : result (list select_handle)
}.

Definition booking_url : string := "https://tickets.sar.com.sa/Booking".

Definition select_selector : string := "select, [role='listbox']".

(** [lstrip] on a list of characters. *)
Fixpoint drop_spaces (l : list string) : list string :=
  match l with
  | [] => []
  | ch :: r => if is_space_char ch then drop_spaces r else l
  end.

(** [str.strip()]: the whitespace characters of [str.isspace] are removed
    from both ends. *)
Definition strip (s : string) : string :=
  String.concat EmptyString (rev (drop_spaces (rev (drop_spaces (py_chars s))))).

(** A Python dict from strings to strings, in insertion order. *)
Definition str_dict := list (string * string).

(** [d[k] = v]: an existing key keeps its place, a new one goes last. *)
Fixpoint dict_set (d : str_dict) (k v : string) : str_dict :=
  match d with
  | [] => [(k, v)]
  | (k', v') :: r => if string_dec k k' then (k', v) :: r else (k', v') :: dict_set r k v
  end.

(** [d.get(k)] *)
Fixpoint dict_get (d : str_dict) (k : string) : option string :=
  match d with
  | [] => None
  | (k', v') :: r => if string_dec k k' then Some v' else dict_get r k
  end.

(** [for option in options: value = ...; text = ...; if value and text: ...] *)
Fixpoint collect_options (options : list option_handle) (station_data : str_dict)
  : M str_dict :=
  match options with
  | [] => ret station_data
  | option :: rest =>
      value <- lift (opt_get_attribute_value option) ;;
      text <- lift (opt_inner_text option) ;;
      let station_data' :=
        match value, text with
        | Some (String _ _ as v), String _ _ =>
            dict_set station_data (strip text) v
        | _, _ => station_data
        end in
      collect_options rest station_data'
  end.

(** [for select in selects: options = await select.query_selector_all("option"); ...] *)
Fixpoint collect_selects (selects : list select_handle) (station_data : str_dict)
  : M str_dict :=
  match selects with
  | [] => ret station_data
  | select :: rest =>
      emit (EQuery "option") ;;
      options <- lift (sel_query_options select) ;;
      station_data' <- collect_options options station_data ;;
      collect_selects rest station_data'
  end.

(** [json_dumps] stands for [json.dumps(_, indent=2)]. *)
Definition discover_station_codes (json_dumps : str_dict -> string)
  (page : booking_view) : M str_dict :=
  print "Attempting to discover station codes..." ;;
  try_except
    (emit (EGoto booking_url) ;; lift (bk_goto page) ;;
     page_wait_for_timeout 3000 ;;
     emit (EQuery select_selector) ;;
     selects <- lift (bk_query_selects page) ;;
     station_data <- collect_selects selects [] ;;
     match station_data with
     | [] => ret tt
     | _ :: _ => print ("Found station codes: " ++ json_dumps station_data)
     end ;;
     ret station_data)
    (fun e => print ("Could not discover station codes: " ++ exn_str e) ;; ret []).

(** The dict invariant: no key twice, and no empty value. *)
Definition dict_ok (d : str_dict) : Prop :=
  NoDup (map fst d) /\ Forall (fun kv => snd kv <> EmptyString) d.

(** A select whose handling raises: its own query, or the value or text of one of its options. *)
Definition select_raises (s : select_handle) : Prop :=
  (exists e, sel_query_options s = Err e)
  \/ exists opts o, sel_query_options s = Ok opts /\ In o opts
       /\ ((exists e, opt_get_attribute_value o = Err e) \/ (exists e, opt_inner_text o = Err e)).

Definition option_ok (o : option_handle) : Prop :=
  (exists value, opt_get_attribute_value o = Ok value) /\ (exists text, opt_inner_text o = Ok text).

Definition select_ok (s : select_handle) : Prop :=
  exists opts, sel_query_options s = Ok opts /\ Forall option_ok opts.

(** ** The message built by [send_email] *)

Definition dq : string := String (ascii_of_nat 34) EmptyString.

(** [subject = f"🚂 SAR Tickets Available! ({len(available_trips)} trips found)"] *)
Definition email_subject (available_trips : list trip_info) : string :=
  "🚂 SAR Tickets Available! (" ++ str_nat (length available_trips) ++ " trips found)".

Definition html_head : string :=
  nl ++ "    <html>"
  ++ nl ++ "    <body style=" ++ dq ++ "font-family: Arial, sans-serif;" ++ dq ++ ">"
  ++ nl ++ "    <h2 style=" ++ dq ++ "color: #2e7d32;" ++ dq ++ ">🎫 SAR Train Tickets Available!</h2>"
  ++ nl ++ "    <p>The following train tickets are now available:</p>"
  ++ nl ++ "    <table style=" ++ dq ++ "border-collapse: collapse; width: 100%;" ++ dq ++ ">"
  ++ nl ++ "        <tr style=" ++ dq ++ "background-color: #e8f5e9;" ++ dq ++ ">"
  ++ nl ++ "            <th style=" ++ dq ++ "padding: 10px; border: 1px solid #ddd;" ++ dq ++ ">Route</th>"
  ++ nl ++ "            <th style=" ++ dq ++ "padding: 10px; border: 1px solid #ddd;" ++ dq ++ ">Date</th>"
  ++ nl ++ "            <th style=" ++ dq ++ "padding: 10px; border: 1px solid #ddd;" ++ dq ++ ">Link</th>"
  ++ nl ++ "        </tr>"
  ++ nl ++ "    ".

(** The f-string added to [body_html] for each trip. *)
Definition html_row (trip : trip_info) : string :=
  nl ++ "        <tr>"
  ++ nl ++ "            <td style=" ++ dq ++ "padding: 10px; border: 1px solid #ddd;" ++ dq ++ ">"
  ++ ti_route trip ++ "</td>"
  ++ nl ++ "            <td style=" ++ dq ++ "padding: 10px; border: 1px solid #ddd;" ++ dq ++ ">"
  ++ ti_date trip ++ "</td>"
  ++ nl ++ "            <td style=" ++ dq ++ "padding: 10px; border: 1px solid #ddd;" ++ dq ++ ">"
  ++ nl ++ "                <a href=" ++ dq ++ ti_url trip ++ dq
  ++ " style=" ++ dq ++ "color: #1976d2;" ++ dq ++ ">Book Now</a>"
  ++ nl ++ "            </td>"
  ++ nl ++ "        </tr>"
  ++ nl ++ "        ".

Definition html_tail : string :=
  nl ++ "    </table>"
  ++ nl ++ "    <p style=" ++ dq ++ "margin-top: 20px; color: #666;" ++ dq ++ ">"
  ++ nl ++ "        <strong>Note:</strong> Book quickly as tickets may sell out!"
  ++ nl ++ "    </p>"
  ++ nl ++ "    </body>"
  ++ nl ++ "    </html>"
  ++ nl ++ "    ".

(** [body_html = ...; for trip in available_trips: body_html += ...; body_html += ...] *)
Definition email_body_html (available_trips : list trip_info) : string :=
  fold_left (fun body_html trip => body_html ++ html_row trip) available_trips html_head
  ++ html_tail.

(** [body_text = ...; for trip in available_trips: body_text += ... (three times)] *)
Definition email_body_text (available_trips : list trip_info) : string :=
  fold_left (fun body_text trip =>
               ((body_text ++ ("Route: " ++ ti_route trip ++ nl))
                ++ ("Date: " ++ ti_date trip ++ nl))
               ++ ("Link: " ++ ti_url trip ++ nl ++ nl))
            available_trips ("SAR Train Tickets Available!" ++ nl ++ nl).

(** What of a trip the message shows. *)
Definition trip_key (trip : trip_info) : string * string * string :=
  (ti_route trip, ti_date trip, ti_url trip).


(** * Proofs *)

(** ** Reasoning about [M]: what a computation emits *)

Section Emits.
Variable P : event -> Prop.

(** [m] returns [res] and appends exactly [evs] to any trace, and every
    event it appends satisfies [P]. *)
Definition emits_only {A} (m : M A) : Prop :=
  exists res evs, (forall tr, m tr = (res, (tr ++ evs)%list)) /\ Forall P evs.

Lemma ret_emits {A} (a : A) : emits_only (ret a).
Proof. exists (Ok a), []. split; [intro tr; now rewrite app_nil_r | constructor]. Qed.

Lemma lift_emits {A} (r : result A) : emits_only (lift r).
Proof. exists r, []. split; [intro tr; now rewrite app_nil_r | constructor]. Qed.

Lemma emit_emits ev : P ev -> emits_only (emit ev).
Proof. intro H. exists (Ok tt), [ev]. split; [reflexivity | now constructor]. Qed.

Lemma bind_emits {A B} (m : M A) (k : A -> M B) :
  emits_only m -> (forall a, emits_only (k a)) -> emits_only (bind m k).
Proof.
  intros [res [evs [Hm HP]]] Hk.
  destruct res as [a|e].
  - destruct (Hk a) as [res' [evs' [Hk' HP']]].
    exists res', (evs ++ evs')%list. split.
    + intro tr. unfold bind. rewrite Hm, Hk'. now rewrite app_assoc.
    + now apply Forall_app.
  - exists (Err e), evs. split; [intro tr; unfold bind; now rewrite Hm | exact HP].
Qed.

Lemma try_except_emits {A} (body : M A) (h : py_exn -> M A) :
  emits_only body -> (forall e, emits_only (h e)) -> emits_only (try_except body h).
Proof.
  intros [res [evs [Hb HP]]] Hh.
  destruct res as [a|e].
  - exists (Ok a), evs. split; [intro tr; unfold try_except; now rewrite Hb | exact HP].
  - destruct (Hh e) as [res' [evs' [Hh' HP']]].
    exists res', (evs ++ evs')%list. split.
    + intro tr. unfold try_except. rewrite Hb, Hh'. now rewrite app_assoc.
    + now apply Forall_app.
Qed.

End Emits.

Arguments emits_only P {A} m.

Lemma emits_only_weaken (P Q : event -> Prop) {A} (m : M A) :
  (forall ev, P ev -> Q ev) -> emits_only P m -> emits_only Q m.
Proof.
  intros HPQ [res [evs [Hm HP]]]. exists res, evs. split; [exact Hm|].
  eapply Forall_impl; eauto.
Qed.

Create HintDb emits.
#[local] Hint Resolve ret_emits lift_emits : emits.

(** Decompose a computation into its steps. *)
Ltac emits_steps :=
  repeat match goal with
  | |- emits_only _ (bind _ _) => apply bind_emits; [|intro]
  | |- emits_only _ (try_except _ _) => apply try_except_emits; [|intro]
  | |- emits_only _ (ret _) => apply ret_emits
  | |- emits_only _ (lift _) => apply lift_emits
  | |- emits_only _ (emit _) => apply emit_emits; simpl
  | |- emits_only _ (match ?x with _ => _ end) => destruct x
  | |- emits_only _ (if ?b then _ else _) => destruct b
  | |- emits_only _ (print _) => unfold print
  | |- emits_only _ (page_wait_for_timeout _) => unfold page_wait_for_timeout
  | |- emits_only _ (page_content _) => unfold page_content
  | |- emits_only _ (page_inner_text_body _) => unfold page_inner_text_body
  | |- emits_only _ (page_query_selector_all _ _) => unfold page_query_selector_all
  end.

(** Run the monad's plumbing, leaving the modelled functions folded. *)
Ltac run_M :=
  repeat progress (unfold try_except, bind, print, emit, lift, ret, page_goto,
                    page_wait_for_timeout, page_content, page_inner_text_body,
                    page_query_selector_all; cbv beta iota zeta).

(** [run_M] in a hypothesis. *)
Ltac run_M_in H :=
  repeat progress (unfold try_except, bind, print, emit, lift, ret, page_goto,
                    page_wait_for_timeout, page_content, page_inner_text_body,
                    page_query_selector_all in H; cbv beta iota zeta in H).

(** Events that neither fetch nor pace. *)
Definition silent (ev : event) : Prop :=
  match ev with
  | EGoto _ => False
  | EWait ms => ms <> 2000
  | _ => True
  end.

Lemma selector_step_silent page url route date sel :
  emits_only silent (selector_step page url route date sel).
Proof. unfold selector_step. emits_steps; simpl; auto. Qed.

Lemma try_selectors_silent page url route date sels :
  emits_only silent (try_selectors page url route date sels).
Proof.
  induction sels as [|sel rest IH]; simpl; emits_steps; auto.
  apply selector_step_silent.
Qed.

Lemma classify_loaded_page_silent page url route date :
  emits_only silent (classify_loaded_page page url route date).
Proof.
  unfold classify_loaded_page. emits_steps;
    try apply try_selectors_silent; simpl; auto; discriminate.
Qed.

Lemma gotos_app a b : gotos (a ++ b) = (gotos a ++ gotos b)%list.
Proof. induction a as [|[] a IH]; simpl; f_equal; auto. Qed.

Lemma pacing_view_app a b : pacing_view (a ++ b) = (pacing_view a ++ pacing_view b)%list.
Proof. apply filter_app. Qed.

Lemma silent_views evs :
  Forall silent evs -> pacing_view evs = [] /\ gotos evs = [].
Proof.
  unfold pacing_view.
  induction 1 as [|ev evs Hev _ [IH1 IH2]]; [split; reflexivity|].
  destruct ev; simpl in *; try contradiction; try (split; assumption).
  destruct (Nat.eqb_spec ms 2000); [contradiction | split; assumption].
Qed.

(** One date: a print, the fetch, then only silent events; the result is
    always a value, never an exception. *)
Lemma check_availability_shape page url route date :
  exists r evs,
    (forall tr, check_availability page url route date tr =
       (Ok r, (tr ++ EPrint ("  Checking " ++ route ++ " on " ++ date ++ "...")
                  :: EGoto url :: evs)%list))
    /\ Forall silent evs.
Proof.
  destruct (classify_loaded_page_silent page url route date) as [res [evs [Hc HF]]].
  destruct (pv_goto page) as [[]|e] eqn:Hg; [destruct res as [r|e]|].
  - exists r, evs. split; [|exact HF]. intro tr.
    unfold check_availability. run_M. rewrite Hg. run_M. rewrite Hc.
    rewrite <- !app_assoc. reflexivity.
  - exists None, (evs ++ [EPrint ("    Error checking " ++ date ++ ": " ++ exn_str e)])%list.
    split.
    + intro tr. unfold check_availability. run_M. rewrite Hg. run_M. rewrite Hc. run_M.
      rewrite <- !app_assoc. reflexivity.
    + apply Forall_app; split; [exact HF | repeat constructor].
  - exists None, [EPrint ("    Error checking " ++ date ++ ": " ++ exn_str e)].
    split; [|repeat constructor]. intro tr.
    unfold check_availability. run_M. rewrite Hg. run_M.
    rewrite <- !app_assoc. reflexivity.
Qed.

Lemma classify_date_eq web rc date r evs :
  (forall tr, check_availability (web (url_of rc date)) (url_of rc date) (route_name rc) date tr =
     (Ok r, (tr ++ evs)%list)) ->
  classify_date web rc date = r.
Proof. intro H. unfold classify_date. now rewrite H. Qed.

(** The loop over the dates of one route. *)
Lemma scan_dates_run web rc dates acc :
  exists evs,
    (forall tr, scan_dates web rc dates acc tr =
       (Ok (acc ++ flat_map (fun d => option_list (classify_date web rc d)) dates)%list,
        (tr ++ evs)%list))
    /\ pacing_view evs = flat_map (fun d => [EGoto (url_of rc d); EWait 2000]) dates
    /\ gotos evs = map (url_of rc) dates.
Proof.
  revert acc. induction dates as [|d ds IH]; intro acc.
  - exists []. simpl. split; [intro tr; now rewrite !app_nil_r | split; reflexivity].
  - destruct (check_availability_shape (web (url_of rc d)) (url_of rc d) (route_name rc) d)
      as [r [evs1 [Hc HF]]].
    pose proof (classify_date_eq web rc d r _ Hc) as Hr.
    destruct (silent_views _ HF) as [Hp Hg].
    set (pre := EPrint ("  Checking " ++ route_name rc ++ " on " ++ d ++ "...")).
    set (line := match r with
                 | Some _ => "    ✅ AVAILABLE on " ++ d ++ "!"
                 | None => "    ❌ Not available on " ++ d
                 end).
    set (acc' := match r with Some info => (acc ++ [info])%list | None => acc end).
    destruct (IH acc') as [evs2 [Hs [Hp2 Hg2]]].
    exists (pre :: EGoto (url_of rc d) :: evs1 ++ [EPrint line; EWait 2000] ++ evs2)%list.
    split; [|split].
    + intro tr. simpl scan_dates. unfold bind at 1. rewrite Hc.
      destruct r as [info|]; cbn [bind print emit ret page_wait_for_timeout];
        rewrite Hs; subst acc' line; simpl; rewrite ?Hr; simpl;
        rewrite <- !app_assoc; simpl; f_equal; f_equal; simpl;
        rewrite <- ?app_assoc; reflexivity.
    + simpl. rewrite pacing_view_app, Hp. simpl. rewrite Hp2. reflexivity.
    + simpl. rewrite gotos_app, Hg. simpl. rewrite Hg2. reflexivity.
Qed.

Lemma flat_map_pair {A B C} (f : A * B -> list C) (a : A) (l : list B) :
  flat_map f (map (pair a) l) = flat_map (fun b => f (a, b)) l.
Proof. induction l as [|b l IH]; simpl; [reflexivity | now rewrite IH]. Qed.

Lemma generate_dates_CONFIG_outbound :
  generate_dates (start_date CONFIG_outbound) (end_date CONFIG_outbound)
  = Ok (dates_of CONFIG_outbound).
Proof. vm_compute. reflexivity. Qed.

Lemma generate_dates_CONFIG_return :
  generate_dates (start_date CONFIG_return) (end_date CONFIG_return)
  = Ok (dates_of CONFIG_return).
Proof. vm_compute. reflexivity. Qed.

Lemma scan_route_run web header rc acc :
  generate_dates (start_date rc) (end_date rc) = Ok (dates_of rc) ->
  exists evs,
    (forall tr, scan_route web header rc acc tr =
       (Ok (acc ++ flat_map (fun d => option_list (classify_date web rc d)) (dates_of rc))%list,
        (tr ++ evs)%list))
    /\ pacing_view evs = flat_map (fun d => [EGoto (url_of rc d); EWait 2000]) (dates_of rc)
    /\ gotos evs = map (url_of rc) (dates_of rc).
Proof.
  intro Hg.
  destruct (scan_dates_run web rc (dates_of rc) acc) as [evs [Hs [Hp Hgo]]].
  exists (EPrint (nl ++ "📍 Checking " ++ header)
          :: EPrint ("   Date range: " ++ start_date rc ++ " to " ++ end_date rc) :: evs).
  split; [|split].
  - intro tr. unfold scan_route. run_M. rewrite Hg. run_M. rewrite Hs.
    rewrite <- !app_assoc. reflexivity.
  - exact Hp.
  - exact Hgo.
Qed.

(** Both routes of [main], in order. *)
Lemma scan_all_run web :
  exists evs,
    (forall tr, scan_all web tr =
       (Ok (flat_map (fun p => option_list (classify_date web (fst p) (snd p))) all_dates),
        (tr ++ evs)%list))
    /\ pacing_view evs
       = flat_map (fun p => [EGoto (url_of (fst p) (snd p)); EWait 2000]) all_dates
    /\ gotos evs = map (fun p => url_of (fst p) (snd p)) all_dates.
Proof.
  destruct (scan_route_run web "OUTBOUND: Riyadh → Qurayyat" CONFIG_outbound []
              generate_dates_CONFIG_outbound) as [evs1 [H1 [P1 G1]]].
  set (trips1 := ([] ++ flat_map (fun d => option_list (classify_date web CONFIG_outbound d))
                              (dates_of CONFIG_outbound))%list).
  destruct (scan_route_run web "RETURN: Qurayyat → Riyadh" CONFIG_return trips1
              generate_dates_CONFIG_return) as [evs2 [H2 [P2 G2]]].
  exists (evs1 ++ evs2)%list. unfold all_dates.
  rewrite !flat_map_app, !flat_map_pair, map_app, !map_map.
  split; [|split].
  - intro tr. unfold scan_all. run_M. rewrite H1. run_M. rewrite H2.
    rewrite app_assoc. reflexivity.
  - rewrite pacing_view_app, P1, P2. reflexivity.
  - rewrite gotos_app, G1, G2. reflexivity.
Qed.

Ltac forall_silent :=
  repeat first [ apply Forall_nil | apply Forall_cons | apply Forall_app; split
               | assumption | exact I ].

Lemma print_trips_run trips :
  exists evs, (forall tr, print_trips trips tr = (Ok tt, (tr ++ evs)%list)) /\ Forall silent evs.
Proof.
  induction trips as [|t ts [evs [H HF]]].
  - exists []. split; [intro tr; now rewrite app_nil_r | constructor].
  - destruct (ti_details t) as [det|] eqn:Hd.
    + eexists. split.
      * intro tr. simpl print_trips. run_M. rewrite Hd. run_M. rewrite H.
        rewrite <- !app_assoc. reflexivity.
      * simpl. repeat constructor; assumption.
    + eexists. split.
      * intro tr. simpl print_trips. run_M. rewrite Hd. run_M. rewrite H.
        rewrite <- !app_assoc. reflexivity.
      * simpl. repeat constructor; assumption.
Qed.

(** [send_email] always returns normally. *)
Lemma send_email_run env smtp trips :
  exists evs, (forall tr, send_email env smtp trips tr = (Ok tt, (tr ++ evs)%list))
              /\ Forall silent evs.
Proof.
  destruct (negb (truthy (SENDER_EMAIL env)) || negb (truthy (SENDER_PASSWORD env))) eqn:Hc.
  - destruct (print_trips_run trips) as [evs [H HF]].
    eexists. split.
    + intro tr. unfold send_email. run_M. rewrite Hc. run_M. rewrite H.
      rewrite <- !app_assoc. reflexivity.
    + repeat constructor; assumption.
  - destruct (ssl_session smtp) as [[]|e1] eqn:H1;
      [|destruct (tls_session smtp) as [[]|e2] eqn:H2];
      (eexists; split;
       [intro tr; unfold send_email; run_M; rewrite Hc; run_M; rewrite ?H1; run_M;
        rewrite ?H2; run_M; rewrite <- !app_assoc; reflexivity
       | repeat constructor]).
Qed.

(** The whole of [main]: the banner, the scan, the summary and the
    notification; it always returns normally. *)
Lemma main_run web env smtp started finished :
  exists evs_scan evs_rest,
    (forall tr, main web env smtp started finished tr =
       (Ok tt, (tr ++ [EPrint rule; EPrint "SAR Ticket Availability Monitor";
                       EPrint ("Started at: " ++ started); EPrint rule]
                  ++ evs_scan ++ evs_rest)%list))
    /\ pacing_view evs_scan
       = flat_map (fun p => [EGoto (url_of (fst p) (snd p)); EWait 2000]) all_dates
    /\ gotos evs_scan = map (fun p => url_of (fst p) (snd p)) all_dates
    /\ Forall silent evs_rest.
Proof.
  destruct (scan_all_run web) as [evs [Hs [Hp Hg]]].
  set (trips := flat_map (fun p => option_list (classify_date web (fst p) (snd p))) all_dates).
  destruct (send_email_run env smtp trips) as [evs_m [Hm HFm]].
  destruct trips as [|t ts] eqn:Ht.
  - eexists evs, _. split; [|split; [exact Hp|split; [exact Hg|]]].
    + intro tr. unfold main. run_M. rewrite Hs. fold trips. rewrite Ht. run_M.
      rewrite <- !app_assoc. reflexivity.
    + repeat constructor.
  - eexists evs, _. split; [|split; [exact Hp|split; [exact Hg|]]].
    + intro tr. unfold main. run_M. rewrite Hs. fold trips. rewrite Ht. run_M.
      rewrite Hm. run_M. rewrite <- !app_assoc. reflexivity.
    + forall_silent.
Qed.

(** ** Lemmas on the classifier *)

Lemma has_indicator_in inds ind page_text :
  In ind inds -> contains (lower ind) (lower page_text) = true ->
  has_indicator inds page_text = true.
Proof.
  induction inds as [|i is IH]; simpl; [contradiction|].
  intros [<-|Hin] Hc; [now rewrite Hc|].
  destruct (contains (lower i) (lower page_text)); [reflexivity | now apply IH].
Qed.

Lemma selector_step_query_only p1 p2 url route date sel :
  pv_query p1 = pv_query p2 ->
  selector_step p1 url route date sel = selector_step p2 url route date sel.
Proof. intro H. unfold selector_step, page_query_selector_all. now rewrite H. Qed.

Lemma try_selectors_query_only p1 p2 url route date sels tr :
  pv_query p1 = pv_query p2 ->
  try_selectors p1 url route date sels tr = try_selectors p2 url route date sels tr.
Proof.
  intro H. revert tr. induction sels as [|sel rest IH]; intro tr; [reflexivity|].
  simpl. unfold bind. rewrite (selector_step_query_only p1 p2 _ _ _ _ H).
  destruct (selector_step p2 url route date sel tr) as [[[info|]|e] tr']; auto.
Qed.

Definition query_empty (page : page_view) (sel : string) : bool :=
  match pv_query page sel with Ok (_ :: _) => false | _ => true end.

Lemma try_selectors_none page url route date sels tr :
  (forall sel, In sel sels -> query_empty page sel = true) ->
  fst (try_selectors page url route date sels tr) = Ok None.
Proof.
  revert tr. induction sels as [|sel rest IH]; intros tr H; [reflexivity|].
  simpl. unfold selector_step. run_M.
  assert (Hs : query_empty page sel = true) by (apply H; now left).
  unfold query_empty in Hs.
  destruct (pv_query page sel) as [[|x l]|e]; run_M; try discriminate;
    apply IH; intros; apply H; now right.
Qed.

(** Past the negative check, the page text is not looked at again. *)
Lemma classify_loaded_page_text_independent p1 p2 url route date t1 t2 tr :
  pv_content p1 = pv_content p2 -> pv_query p1 = pv_query p2 ->
  pv_body_text p1 = Ok t1 -> pv_body_text p2 = Ok t2 ->
  has_indicator no_availability_indicators t1 = false ->
  has_indicator no_availability_indicators t2 = false ->
  classify_loaded_page p1 url route date tr = classify_loaded_page p2 url route date tr.
Proof.
  intros Hc Hq Hb1 Hb2 Ht1 Ht2. unfold classify_loaded_page. run_M.
  rewrite Hc. destruct (pv_content p2); run_M; [|reflexivity].
  rewrite Hb1, Hb2. run_M. rewrite Ht1, Ht2.
  rewrite (try_selectors_query_only p1 p2 url route date trip_selectors _ Hq).
  run_M. rewrite Hq. reflexivity.
Qed.

(** ** Lemmas on the URL *)

Lemma append_cancel_l (p a b : string) : (p ++ a = p ++ b)%string -> a = b.
Proof. induction p as [|c p IH]; simpl; [auto | intro H; injection H; auto]. Qed.

Lemma prefix_empty s : String.prefix EmptyString s = true.
Proof. now destruct s. Qed.

Lemma contains_amp_cons c r :
  contains "&" (String c r) = if ascii_dec "&" c then true else contains "&" r.
Proof.
  cbn [contains prefix]. destruct (ascii_dec "&" c); [now rewrite prefix_empty | reflexivity].
Qed.

Lemma no_amp_cons c r : no_amp (String c r) = true -> c <> "&"%char /\ no_amp r = true.
Proof.
  unfold no_amp. rewrite contains_amp_cons.
  destruct (ascii_dec "&" c) as [<-|Hc]; simpl; intro H; [discriminate H | split; auto].
Qed.

(** A field without ['&'] ends at the next ['&']. *)
Lemma append_amp_inj (a b s1 s2 : string) :
  no_amp a = true -> no_amp b = true ->
  String.prefix "&" s1 = true -> String.prefix "&" s2 = true ->
  (a ++ s1 = b ++ s2)%string -> a = b /\ s1 = s2.
Proof.
  revert b. induction a as [|c a IH]; intros b Ha Hb H1 H2 Heq.
  - destruct b as [|c' b]; [split; auto|].
    apply no_amp_cons in Hb as [Hc' _]. simpl in Heq. subst s1.
    cbn [prefix] in H1. destruct (ascii_dec "&" c'); [congruence | discriminate H1].
  - destruct b as [|c' b].
    + apply no_amp_cons in Ha as [Hc _]. simpl in Heq. subst s2.
      cbn [prefix] in H2. destruct (ascii_dec "&" c); [congruence | discriminate H2].
    + apply no_amp_cons in Ha as [_ Ha]. apply no_amp_cons in Hb as [_ Hb].
      simpl in Heq. injection Heq as -> Heq.
      destruct (IH b Ha Hb H1 H2 Heq) as [-> ->]. split; reflexivity.
Qed.

(** ** Lemmas on dates *)

Open Scope Z_scope.

Lemma dt_le_iff a b :
  dt_le a b = true <->
  year a < year b \/ (year a = year b /\ (month a < month b \/ (month a = month b /\ day a <= day b))).
Proof.
  unfold dt_le.
  rewrite orb_true_iff, andb_true_iff, orb_true_iff, andb_true_iff,
    Z.ltb_lt, Z.eqb_eq, Z.ltb_lt, Z.eqb_eq, Z.leb_le.
  tauto.
Qed.

Lemma dt_le_false a b :
  dt_le a b = false <->
  ~ (year a < year b \/ (year a = year b /\ (month a < month b \/ (month a = month b /\ day a <= day b)))).
Proof. rewrite <- dt_le_iff. destruct (dt_le a b); intuition congruence. Qed.

(** Turn every [dt_le] fact into arithmetic. *)
Ltac dt_arith :=
  repeat match goal with
  | H : dt_le _ _ = true |- _ => apply dt_le_iff in H
  | H : dt_le _ _ = false |- _ => apply dt_le_false in H
  | |- dt_le _ _ = true => apply dt_le_iff
  | |- dt_le _ _ = false => apply dt_le_false
  end.

Lemma dim_range y m : 28 <= days_in_month y m <= 31.
Proof.
  unfold days_in_month.
  destruct (m =? 2); [destruct (is_leap y) | destruct ((m =? 4) || (m =? 6) || (m =? 9) || (m =? 11))];
    lia.
Qed.

Lemma dt_ext a b : year a = year b -> month a = month b -> day a = day b -> a = b.
Proof. destruct a, b; simpl; intros; subst; reflexivity. Qed.

Lemma valid_le_key a b :
  valid_dt a -> valid_dt b -> dt_le a b = true -> dt_key a <= dt_key b.
Proof.
  unfold valid_dt, dt_key, MINYEAR, MAXYEAR. intros Ha Hb H.
  pose proof (dim_range (year a) (month a)). pose proof (dim_range (year b) (month b)).
  dt_arith. lia.
Qed.

Lemma valid_le_max d : valid_dt d -> dt_le d dt_max = true.
Proof.
  unfold valid_dt, MINYEAR, MAXYEAR. intro H. pose proof (dim_range (year d) (month d)).
  dt_arith. simpl. lia.
Qed.

(** [current + timedelta(days=1)] below the last representable day:
    the next calendar day, and nothing valid lies strictly between. *)
Lemma add_one_day_spec cur :
  valid_dt cur -> cur <> dt_max ->
  exists next, add_one_day cur = Ok next /\ valid_dt next
    /\ dt_le next cur = false /\ dt_key cur < dt_key next
    /\ (forall d, valid_dt d -> dt_le d cur = false -> dt_le next d = true).
Proof.
  destruct cur as [y m d]. unfold valid_dt, add_one_day, dt_key, MINYEAR, MAXYEAR. simpl.
  intros Hv Hne. pose proof (dim_range y m) as Hdim.
  destruct (Z.leb_spec (d + 1) (days_in_month y m)).
  - eexists. split; [reflexivity|]. simpl. split; [lia|]. split; [dt_arith; simpl; lia|].
    split; [lia|]. intros [y' m' d'] Hv' Hlt. dt_arith. simpl in *. lia.
  - destruct (Z.leb_spec (m + 1) 12).
    + pose proof (dim_range y (m + 1)).
      eexists. split; [reflexivity|]. simpl. split; [lia|]. split; [dt_arith; simpl; lia|].
      split; [lia|]. intros [y' m' d'] Hv' Hlt. dt_arith. simpl in *.
      destruct (Z.eq_dec y' y); [subst y'|lia]. destruct (Z.eq_dec m' m); [subst m'|lia]. lia.
    + destruct (Z.leb_spec (y + 1) 9999).
      * assert (m = 12) by lia. subst m.
        eexists. split; [reflexivity|]. simpl.
        split; [cbv [days_in_month]; simpl; lia|]. split; [dt_arith; simpl; lia|].
        split; [lia|]. intros [y' m' d'] Hv' Hlt. dt_arith. simpl in *.
        destruct (Z.eq_dec y' y); [subst y'|lia]. destruct (Z.eq_dec m' 12); [subst m'|lia]. lia.
      * exfalso. apply Hne. assert (m = 12) by lia. subst m.
        assert (Hd : days_in_month y 12 = 31) by reflexivity.
        apply dt_ext; simpl; lia.
Qed.

(** The [while] loop of [generate_dates], when [end] is not the last
    representable day: it appends, in increasing order, exactly the valid
    days from [current] to [end]. *)
Lemma gen_loop_spec fuel cur e acc :
  valid_dt cur -> valid_dt e -> e <> dt_max ->
  (Z.to_nat (dt_key e - dt_key cur + 1) <= fuel)%nat ->
  exists L, gen_loop fuel cur e acc = Ok (acc ++ map strftime L)%list
    /\ (forall d, In d L <-> valid_dt d /\ dt_le cur d = true /\ dt_le d e = true)
    /\ StronglySorted (fun a b => dt_le b a = false) L.
Proof.
  revert cur acc. induction fuel as [|fuel IH]; intros cur acc Hc He Hne Hf.
  - exists []. split; [simpl; now rewrite app_nil_r|]. split; [|constructor].
    intro d. split; [simpl; tauto|]. intros [Hd [H1 H2]].
    pose proof (valid_le_key _ _ Hc Hd H1). pose proof (valid_le_key _ _ Hd He H2). lia.
  - simpl. destruct (dt_le cur e) eqn:Hle.
    + assert (Hcm : cur <> dt_max).
      { intro Heq. subst cur. apply Hne. pose proof (valid_le_max e He).
        dt_arith. simpl in *. apply dt_ext; simpl; lia. }
      destruct (add_one_day_spec cur Hc Hcm) as [next [Hn [Hvn [Hlt [Hkey Hbetween]]]]].
      rewrite Hn.
      destruct (IH next (acc ++ [strftime cur])%list Hvn He Hne) as [L [Hrun [Hmem Hsort]]];
        [lia|].
      exists (cur :: L). split; [rewrite Hrun; simpl; now rewrite <- app_assoc|]. split.
      * intro d. simpl. rewrite Hmem. split.
        -- intros [<-|[Hd [H1 H2]]].
           ++ split; [exact Hc|]. split; [dt_arith; lia | exact Hle].
           ++ split; [exact Hd|]. split; [|exact H2]. dt_arith. lia.
        -- intros [Hd [H1 H2]]. destruct (dt_le d cur) eqn:Hdc.
           ++ left. dt_arith. apply dt_ext; lia.
           ++ right. split; [exact Hd|]. split; [now apply Hbetween | exact H2].
      * constructor; [exact Hsort|]. apply Forall_forall. intros b Hb.
        apply Hmem in Hb as [_ [H1 _]]. dt_arith. lia.
    + exists []. split; [now rewrite app_nil_r|]. split; [|constructor].
      intro d. split; [simpl; tauto|]. intros [_ [H1 H2]]. dt_arith. lia.
Qed.

Lemma decimal_range ch v : decimal ch = Some v -> 0 <= v <= 9.
Proof.
  unfold decimal. cbv zeta. destruct (find _ nd_zeros) as [z|] eqn:E; [|discriminate].
  apply find_some in E as [_ E]. apply andb_true_iff in E as [E1 E2].
  apply Z.leb_le in E1, E2. intro H. injection H as <-. lia.
Qed.

Lemma char_in_digit lo hi ch : char_in lo hi ch = true ->
  Z.of_nat (nat_of_ascii lo) - 48 <= ascii_digit ch <= Z.of_nat (nat_of_ascii hi) - 48.
Proof.
  unfold char_in. destruct ch as [|b [|b' r]]; try discriminate.
  rewrite andb_true_iff, !Nat.leb_le. intros [H1 H2].
  unfold ascii_digit, ord. cbn [list_ascii_of_string]. lia.
Qed.

Ltac digit_facts :=
  repeat match goal with
  | H : _ && _ = true |- _ => apply andb_true_iff in H as [? ?]
  | H : char_in _ _ _ = true |- _ => apply char_in_digit in H
  | H : decimal _ = Some _ |- _ => apply decimal_range in H
  end;
  repeat match goal with
  | H : context [Z.of_nat (nat_of_ascii ?c)] |- _ =>
      let n := eval vm_compute in (Z.of_nat (nat_of_ascii c)) in
      change (Z.of_nat (nat_of_ascii c)) with n in H
  end.

Ltac split_ifs :=
  repeat match goal with
  | |- context [if ?b then _ else _] => destruct b eqn:?
  | |- context [match decimal ?c with _ => _ end] => destruct (decimal c) eqn:?
  end.

(** From [Some (v, r) = Some (v', r')], keep [v = v'] without unfolding
    the arithmetic in [v]. *)
Ltac some_fst H :=
  apply (f_equal (fun o => match o with Some (v, _) => v | None => 0 end)) in H;
  cbv beta iota in H.

Lemma match_Y_range s y r : match_Y s = Some (y, r) -> 0 <= y <= 9999.
Proof.
  unfold match_Y. destruct s as [|a [|b [|c [|d r']]]]; try discriminate.
  destruct (decimal a) eqn:Ea, (decimal b) eqn:Eb, (decimal c) eqn:Ec,
    (decimal d) eqn:Ed; try discriminate.
  apply decimal_range in Ea, Eb, Ec, Ed.
  intro H. some_fst H. lia.
Qed.

Lemma match_m_range s m r : match_m s = Some (m, r) -> 1 <= m <= 12.
Proof.
  unfold match_m. destruct s as [|c1 [|c2 r']]; [discriminate| |];
    split_ifs; intro H; cbv beta iota in H; try discriminate; some_fst H; digit_facts; lia.
Qed.

Lemma match_d_pos s d r : match_d s = Some (d, r) -> 1 <= d.
Proof.
  unfold match_d. destruct s as [|c1 [|c2 r']]; [discriminate| |];
    split_ifs; intro H; cbv beta iota in H; try discriminate; some_fst H; digit_facts; lia.
Qed.

(** What [strptime] accepts is a valid date; what it rejects raises
    [ValueError]. *)
Lemma strptime_valid s dt : strptime s = Ok dt -> valid_dt dt.
Proof.
  unfold strptime.
  destruct (match_Y (py_chars s)) as [[y [|c1 r1]]|] eqn:HY; try discriminate.
  destruct (negb (is_char "-" c1)); [discriminate|].
  destruct (match_m r1) as [[m [|c2 r2]]|] eqn:HM; try discriminate.
  destruct (negb (is_char "-" c2)); [discriminate|].
  destruct (match_d r2) as [[d [|c3 r3]]|] eqn:HD; try discriminate.
  apply match_Y_range in HY. apply match_m_range in HM. apply match_d_pos in HD.
  unfold valid_dt, MINYEAR, MAXYEAR.
  destruct (Z.ltb_spec y 1); [discriminate|].
  destruct (Z.ltb_spec (days_in_month y m) d); [discriminate|].
  intro Hok. injection Hok as <-. simpl. lia.
Qed.

Lemma strptime_error s err : strptime s = Err err -> exists msg, err = ValueError msg.
Proof.
  unfold strptime. cbv zeta.
  repeat match goal with
  | |- context [match ?x with _ => _ end] => destruct x
  | |- context [if ?b then _ else _] => destruct b
  end; intro H; try discriminate; injection H as <-; eexists; reflexivity.
Qed.

Lemma datetime_eq_dec (a b : datetime) : {a = b} + {a <> b}.
Proof. decide equality; apply Z.eq_dec. Qed.

(** The loop raises only when [current + timedelta(days=1)] overflows. *)
Lemma gen_loop_error fuel cur e acc err :
  gen_loop fuel cur e acc = Err err -> err = OverflowError "date value out of range".
Proof.
  revert cur acc. induction fuel as [|fuel IH]; intros cur acc; simpl; [discriminate|].
  destruct (dt_le cur e); [|discriminate].
  unfold add_one_day.
  destruct (day cur + 1 <=? days_in_month (year cur) (month cur)); [apply IH|].
  destruct (month cur + 1 <=? 12); [apply IH|].
  destruct (year cur + 1 <=? MAXYEAR); [apply IH|].
  intro H. injection H as <-. reflexivity.
Qed.

(** [generate_dates] on two accepted strings, when the end is not the last
    representable day. *)
Lemma generate_dates_valid s e start end_ :
  strptime s = Ok start -> strptime e = Ok end_ -> end_ <> dt_max ->
  exists L, generate_dates s e = Ok (map strftime L)
    /\ (forall d, In d L <-> valid_dt d /\ dt_le start d = true /\ dt_le d end_ = true)
    /\ StronglySorted (fun a b => dt_le b a = false) L.
Proof.
  intros Hs He Hne. unfold generate_dates. rewrite Hs, He.
  destruct (gen_loop_spec (loop_bound start end_) start end_ []
              (strptime_valid _ _ Hs) (strptime_valid _ _ He) Hne (Nat.le_refl _))
    as [L [Hrun [Hmem Hsort]]].
  exists L. split; [exact Hrun | split; assumption].
Qed.

Close Scope Z_scope.

(** * The claims *)

(** ** Date generation *)

(** C2: [generate_dates] is meant to walk every day from start to end
    inclusive, but when the end is 9999-12-31 it appends that day and then
    computes the next one, which [datetime] cannot represent: the call
    raises [OverflowError] instead of returning [["9999-12-31"]]. *)
Theorem generate_dates_overflow_at_max :
  generate_dates "9999-12-31" "9999-12-31" = Err (OverflowError "date value out of range").
Proof. vm_compute. reflexivity. Qed.

(** The window 2026-02-03..2026-02-05 runs from a Tuesday to a Thursday,
    and [generate_dates] returns all three days. *)
Lemma generate_dates_no_weekday_filter :
  generate_dates "2026-02-03" "2026-02-05" = Ok ["2026-02-03"; "2026-02-04"; "2026-02-05"]
  /\ weekday (mk_datetime 2026 2 3) = 1%Z
  /\ weekday (mk_datetime 2026 2 4) = 2%Z
  /\ weekday (mk_datetime 2026 2 5) = 3%Z.
Proof. vm_compute. repeat split. Qed.

(** C3: [generate_dates] has no weekday filter: for two accepted date
    strings whose end is before 9999-12-31, it returns, in ascending order
    and without repetition, the rendering of every valid day between start
    and end inclusive, whatever its weekday. *)
Theorem generate_dates_every_day s e start end_ :
  strptime s = Ok start -> strptime e = Ok end_ -> end_ <> dt_max ->
  exists L, generate_dates s e = Ok (map strftime L)
    /\ (forall d, In d L <-> valid_dt d /\ dt_le start d = true /\ dt_le d end_ = true)
    /\ StronglySorted (fun a b => dt_le b a = false) L.
Proof. apply generate_dates_valid. Qed.

Lemma generate_dates_every_day_witness :
  exists L, generate_dates "2026-02-03" "2026-02-05" = Ok (map strftime L)
    /\ (forall d, In d L <-> valid_dt d /\ dt_le (mk_datetime 2026 2 3) d = true
                             /\ dt_le d (mk_datetime 2026 2 5) = true)
    /\ StronglySorted (fun a b => dt_le b a = false) L.
Proof.
  apply (generate_dates_every_day "2026-02-03" "2026-02-05"
           (mk_datetime 2026 2 3) (mk_datetime 2026 2 5));
    [vm_compute; reflexivity | vm_compute; reflexivity | unfold dt_max; discriminate].
Defined.

(** [generate_dates] raises [ValueError] on a day that its month does not
    have. *)
Lemma generate_dates_invalid_raises :
  generate_dates "2025-02-30" "2025-03-01" = Err (ValueError "day is out of range for month").
Proof. vm_compute. reflexivity. Qed.

(** C9: [generate_dates] is not total. When either string is rejected by
    [strptime] it raises [ValueError]. When both strings are accepted (and
    the end is not 9999-12-31, the defect of C2) it returns a list, empty
    when start is after end. *)
Theorem generate_dates_outcome s e :
  (forall start end_, strptime s = Ok start -> strptime e = Ok end_ -> end_ <> dt_max ->
     exists l, generate_dates s e = Ok l /\ (dt_le start end_ = false -> l = []))
  /\ (forall err, strptime s = Err err \/ strptime e = Err err ->
        exists msg, generate_dates s e = Err (ValueError msg)).
Proof.
  split.
  - intros start end_ Hs He Hne.
    destruct (generate_dates_valid s e start end_ Hs He Hne) as [L [Hrun _]].
    exists (map strftime L). split; [exact Hrun|]. intro Hgt.
    unfold generate_dates in Hrun. rewrite Hs, He in Hrun.
    destruct (loop_bound start end_); cbn [gen_loop] in Hrun; [|rewrite Hgt in Hrun];
      injection Hrun as <-; reflexivity.
  - intros err Herr. unfold generate_dates.
    destruct (strptime s) as [start|e1] eqn:Hs.
    + destruct (strptime e) as [end_|e2] eqn:He.
      * destruct Herr as [H|H]; discriminate H.
      * destruct (strptime_error e e2 He) as [msg ->]. now exists msg.
    + destruct (strptime_error s e1 Hs) as [msg ->]. now exists msg.
Qed.

Lemma generate_dates_outcome_witness :
  (exists l, generate_dates "2025-03-05" "2025-03-01" = Ok l
             /\ (dt_le (mk_datetime 2025 3 5) (mk_datetime 2025 3 1) = false -> l = []))
  /\ (exists msg, generate_dates "2025-02-30" "2025-03-01" = Err (ValueError msg)).
Proof.
  split.
  - apply (proj1 (generate_dates_outcome "2025-03-05" "2025-03-01"));
      [vm_compute; reflexivity | vm_compute; reflexivity | unfold dt_max; discriminate].
  - apply (proj2 (generate_dates_outcome "2025-02-30" "2025-03-01")
             (ValueError "day is out of range for month")).
    left. vm_compute. reflexivity.
Defined.

(** ** The classifier *)

(** C1: when the body text of the page contains, ignoring ASCII case, one
    of the no-availability phrases, [check_availability] returns [None]
    whatever else the page holds, and it queries no selector. *)
Theorem check_availability_negative_first page url route date page_text ind :
  pv_body_text page = Ok page_text ->
  In ind no_availability_indicators ->
  contains (lower ind) (lower page_text) = true ->
  fst (check_availability page url route date []) = Ok None
  /\ (forall sel, ~ In (EQuery sel) (snd (check_availability page url route date []))).
Proof.
  intros Hb Hin Hc. pose proof (has_indicator_in _ _ _ Hin Hc) as Hh.
  unfold check_availability, classify_loaded_page. run_M.
  destruct (pv_goto page) as [[]|e]; run_M;
    [destruct (pv_content page) as [c|e]; run_M; [rewrite Hb; run_M; rewrite Hh; run_M|]|];
    (split; [reflexivity | intro sel; cbn [In app snd]; intuition discriminate]).
Qed.

Lemma check_availability_negative_first_witness :
  fst (check_availability
         (page_with "Sorry, NO TRIPS AVAILABLE. Economy 08:30, 120 SAR"
                    [{| el_inner_text := Ok "Economy 120 SAR" |}])
         "u" "Riyadh → Qurayyat" "2025-03-03" []) = Ok None
  /\ (forall sel, ~ In (EQuery sel)
         (snd (check_availability
                 (page_with "Sorry, NO TRIPS AVAILABLE. Economy 08:30, 120 SAR"
                            [{| el_inner_text := Ok "Economy 120 SAR" |}])
                 "u" "Riyadh → Qurayyat" "2025-03-03" []))).
Proof.
  apply (check_availability_negative_first _ _ _ _
           "Sorry, NO TRIPS AVAILABLE. Economy 08:30, 120 SAR" "no trips available");
    [reflexivity | now left | vm_compute; reflexivity].
Defined.

(** A page saying "There are 3 trips available", on which no selector
    matches, is classified as unavailable. *)
Lemma count_statement_not_recognised :
  fst (check_availability (page_with "There are 3 trips available" [])
         "u" "Riyadh → Qurayyat" "2025-03-03" []) = Ok None.
Proof. vm_compute. reflexivity. Qed.

(** C4: [check_availability] has no rule on a count statement in the text:
    past the no-availability phrases, the body text is not read, so two
    pages that differ only in a body text without such a phrase give the
    same result and the same trace. *)
Theorem check_availability_text_independent page url route date t1 t2 tr :
  has_indicator no_availability_indicators t1 = false ->
  has_indicator no_availability_indicators t2 = false ->
  check_availability (with_body page t1) url route date tr
  = check_availability (with_body page t2) url route date tr.
Proof.
  intros Ht1 Ht2. unfold check_availability. run_M.
  change (pv_goto (with_body page t1)) with (pv_goto (with_body page t2)).
  destruct (pv_goto (with_body page t2)); run_M; [|reflexivity].
  rewrite (classify_loaded_page_text_independent (with_body page t1) (with_body page t2)
             url route date t1 t2) by (reflexivity || assumption).
  reflexivity.
Qed.

Lemma check_availability_text_independent_witness :
  check_availability (with_body (page_with EmptyString []) "There are 3 trips available")
    "u" "Riyadh → Qurayyat" "2025-03-03" []
  = check_availability (with_body (page_with EmptyString []) EmptyString)
    "u" "Riyadh → Qurayyat" "2025-03-03" [].
Proof.
  apply check_availability_text_independent; vm_compute; reflexivity.
Defined.

(** C8: [check_availability] never raises: for every page it returns a
    value; and when no selector query of the page returns an element, that
    value is [None]. *)
Theorem check_availability_total page url route date :
  (exists r, fst (check_availability page url route date []) = Ok r)
  /\ (no_positive_match page = true -> fst (check_availability page url route date []) = Ok None).
Proof.
  split.
  - destruct (check_availability_shape page url route date) as [r [evs [H _]]].
    exists r. now rewrite H.
  - intro Hn. unfold no_positive_match in Hn. rewrite forallb_forall in Hn.
    assert (Hq : forall sel, In sel (trip_selectors ++ [book_selector; price_selector])
                             -> query_empty page sel = true) by exact Hn.
    unfold check_availability, classify_loaded_page. run_M.
    destruct (pv_goto page) as [[]|e]; run_M; [|reflexivity].
    destruct (pv_content page) as [c|e]; run_M; [|reflexivity].
    destruct (pv_body_text page) as [t|e]; run_M; [|reflexivity].
    destruct (has_indicator no_availability_indicators t); run_M; [reflexivity|].
    match goal with
    | |- context [try_selectors ?p ?u ?r ?d ?s ?tr] =>
        pose proof (try_selectors_none p u r d s tr) as Hts;
        destruct (try_selectors p u r d s tr) as [res tr']
    end.
    cbn [fst] in Hts. rewrite Hts by (intros sel Hs; apply Hq, in_or_app; now left).
    run_M.
    assert (Hbk : query_empty page book_selector = true)
      by (apply Hq, in_or_app; right; now left).
    assert (Hpr : query_empty page price_selector = true)
      by (apply Hq, in_or_app; right; right; now left).
    unfold query_empty in Hbk, Hpr.
    destruct (pv_query page book_selector) as [[|x l]|e]; run_M;
      [|discriminate|reflexivity].
    destruct (pv_query page price_selector) as [[|x l]|e]; run_M;
      [reflexivity|discriminate|reflexivity].
Qed.

(** ** The search URL *)

(** Two different (origin, destination) pairs with the same URL: the
    values are not escaped, so an ['&'] in a value starts a new parameter. *)
Lemma build_search_url_collision :
  ("x&ArrivalStation=y", "z") <> ("x", "y&ArrivalStation=z")
  /\ build_search_url "x&ArrivalStation=y" "z" "2025-03-03" "N"
     = build_search_url "x" "y&ArrivalStation=z" "2025-03-03" "N".
Proof. split; [discriminate | reflexivity]. Qed.

(** C7: the URL is the base path followed by the thirteen parameters in
    their fixed order (origin, destination, date, the fixed passenger
    counts, language, service type, cargo flag, direction); and it
    determines origin, destination, date and direction when the first three
    contain no ['&']. *)
Theorem build_search_url_layout_inj f t d dir :
  build_search_url f t d dir
  = "https://tickets.sar.com.sa/select-trip?DepartureStation=" ++ f
    ++ "&ArrivalStation=" ++ t ++ "&DepartureDateString=" ++ d
    ++ "&AdultCount=1&ChildCount=0&InfantCount=0&DisabledCount=0&CarerCount=0"
    ++ "&passengersCount=1&Lang=en&serviceType=1&WithCarCargo=false&TripDirection="
    ++ dir
  /\ (forall f' t' d' dir',
        no_amp f = true -> no_amp t = true -> no_amp d = true ->
        no_amp f' = true -> no_amp t' = true -> no_amp d' = true ->
        build_search_url f t d dir = build_search_url f' t' d' dir' ->
        f = f' /\ t = t' /\ d = d' /\ dir = dir').
Proof.
  assert (Hlay : forall f t d dir, build_search_url f t d dir
    = "https://tickets.sar.com.sa/select-trip?DepartureStation=" ++ f
      ++ "&ArrivalStation=" ++ t ++ "&DepartureDateString=" ++ d
      ++ "&AdultCount=1&ChildCount=0&InfantCount=0&DisabledCount=0&CarerCount=0"
      ++ "&passengersCount=1&Lang=en&serviceType=1&WithCarCargo=false&TripDirection="
      ++ dir) by reflexivity.
  split; [apply Hlay|].
  intros f' t' d' dir' Hf Ht Hd Hf' Ht' Hd' H. rewrite !Hlay in H.
  apply append_cancel_l in H.
  apply append_amp_inj in H as [-> H]; [|assumption..|reflexivity|reflexivity].
  apply append_cancel_l in H.
  apply append_amp_inj in H as [-> H]; [|assumption..|reflexivity|reflexivity].
  apply append_cancel_l in H.
  apply append_amp_inj in H as [-> H]; [|assumption..|reflexivity|reflexivity].
  apply append_cancel_l, append_cancel_l in H.
  repeat split; assumption.
Qed.

(** ** The scan *)

(** Every URL of the scan is fetched once. *)
Lemma all_dates_urls_once :
  forallb (fun p => Nat.eqb (count_occ string_dec (map (fun q => url_of (fst q) (snd q)) all_dates)
                                       (url_of (fst p) (snd p))) 1) all_dates = true.
Proof. vm_compute. reflexivity. Qed.

(** C5: a failed [page.goto] for one date of the scan makes that date
    unavailable; the scan still fetches every date of both routes, in order,
    each exactly once (the failed one is not fetched again), and the trips
    it returns are those found date by date, each from its own page only. *)
Theorem fetch_failure_isolated web rc date e :
  In (rc, date) all_dates -> pv_goto (web (url_of rc date)) = Err e ->
  classify_date web rc date = None
  /\ fst (scan_all web [])
     = Ok (flat_map (fun p => option_list (classify_date web (fst p) (snd p))) all_dates)
  /\ gotos (snd (scan_all web [])) = map (fun p => url_of (fst p) (snd p)) all_dates
  /\ count_occ string_dec (gotos (snd (scan_all web []))) (url_of rc date) = 1%nat.
Proof.
  intros Hin Hg.
  destruct (scan_all_run web) as [evs [Hs [_ Hgo]]].
  rewrite Hs. cbn [fst snd app]. rewrite Hgo.
  split; [|split; [reflexivity | split; [reflexivity|]]].
  - unfold classify_date, check_availability. run_M. rewrite Hg. run_M. reflexivity.
  - pose proof all_dates_urls_once as Hall. rewrite forallb_forall in Hall.
    apply Nat.eqb_eq. exact (Hall (rc, date) Hin).
Qed.

Lemma fetch_failure_isolated_witness :
  classify_date (site_failing_at (url_of CONFIG_outbound "2025-03-05") (page_with EmptyString []))
    CONFIG_outbound "2025-03-05" = None
  /\ fst (scan_all (site_failing_at (url_of CONFIG_outbound "2025-03-05") (page_with EmptyString [])) [])
     = Ok (flat_map (fun p => option_list
              (classify_date (site_failing_at (url_of CONFIG_outbound "2025-03-05")
                                              (page_with EmptyString []))
                             (fst p) (snd p))) all_dates)
  /\ gotos (snd (scan_all (site_failing_at (url_of CONFIG_outbound "2025-03-05")
                                           (page_with EmptyString [])) []))
     = map (fun p => url_of (fst p) (snd p)) all_dates
  /\ count_occ string_dec
       (gotos (snd (scan_all (site_failing_at (url_of CONFIG_outbound "2025-03-05")
                                              (page_with EmptyString [])) [])))
       (url_of CONFIG_outbound "2025-03-05") = 1%nat.
Proof.
  apply (fetch_failure_isolated _ _ _ (PlaywrightError "Timeout 30000ms exceeded")).
  - vm_compute. right; right; left; reflexivity.
  - vm_compute. reflexivity.
Defined.

(** C6: in the trace of [main], whatever the pages answer (failures
    included), the fetches and the 2000 ms waits alternate: each fetch of a
    date is followed by one 2000 ms wait before the next fetch. *)
Theorem main_pacing web env smtp started finished :
  pacing_view (snd (main web env smtp started finished []))
  = flat_map (fun p => [EGoto (url_of (fst p) (snd p)); EWait 2000]) all_dates.
Proof.
  destruct (main_run web env smtp started finished) as [es [er [H [Hp [_ HF]]]]].
  destruct (silent_views _ HF) as [Hr _].
  rewrite H. cbn [snd]. rewrite app_nil_l, !pacing_view_app, Hp, Hr, app_nil_r.
  reflexivity.
Qed.

(** ** The notification *)

(** C10: with credentials set, when the SSL session on port 465 fails,
    [send_email] opens exactly one more session, on port 587; if that one
    fails too, its last action is to print the error; it returns normally
    in every case, and so does [main]. *)
Theorem send_email_fallback env smtp trips e1 :
  truthy (SENDER_EMAIL env) = true -> truthy (SENDER_PASSWORD env) = true ->
  ssl_session smtp = Err e1 ->
  fst (send_email env smtp trips []) = Ok tt
  /\ smtp_ports (snd (send_email env smtp trips [])) = [465; 587]%nat
  /\ (forall e2, tls_session smtp = Err e2 ->
        last (snd (send_email env smtp trips [])) (EPrint EmptyString)
        = EPrint ("❌ Failed to send email (TLS): " ++ exn_str e2))
  /\ (forall web started finished, fst (main web env smtp started finished []) = Ok tt).
Proof.
  intros Hs Hp H1.
  assert (Hmain : forall web started finished, fst (main web env smtp started finished []) = Ok tt).
  { intros web started finished.
    destruct (main_run web env smtp started finished) as [? [? [Hm _]]]. now rewrite Hm. }
  unfold send_email. cbv zeta. rewrite Hs, Hp. cbn [negb orb]. run_M. rewrite H1. run_M.
  destruct (tls_session smtp) as [[]|e2'] eqn:H2; run_M; cbn [fst snd app smtp_ports last];
    (split; [reflexivity | split; [reflexivity | split; [|exact Hmain]]]).
  - intros e2 He. discriminate He.
  - intros e2 He. injection He as <-. reflexivity.
Qed.

Lemma send_email_fallback_witness :
  let env := {| SENDER_EMAIL := Some "monitor@example.com"; SENDER_PASSWORD := Some "app-password";
                NOTIFY_EMAIL := None |} in
  let smtp := {| ssl_session := Err (SMTPError "Connection unexpectedly closed");
                 tls_session := Err (SMTPError "Authentication failed") |} in
  let trips := [{| ti_date := "2025-03-03"; ti_route := "Riyadh → Qurayyat"; ti_url := "u";
                   ti_count := 1; ti_details := None |}] in
  fst (send_email env smtp trips []) = Ok tt
  /\ smtp_ports (snd (send_email env smtp trips [])) = [465; 587]%nat
  /\ (forall e2, tls_session smtp = Err e2 ->
        last (snd (send_email env smtp trips [])) (EPrint EmptyString)
        = EPrint ("❌ Failed to send email (TLS): " ++ exn_str e2))
  /\ (forall web started finished, fst (main web env smtp started finished []) = Ok tt).
Proof.
  intros env smtp trips.
  apply (send_email_fallback env smtp trips (SMTPError "Connection unexpectedly closed"));
    reflexivity.
Defined.

(** * Further properties of the code *)

Lemma py_take_len n s : (py_len (py_take n s) <= n)%nat.
Proof.
  revert n. induction s as [|b s IH]; intros n; cbn [py_take py_len]; [lia|].
  destruct (is_cont b) eqn:Hb.
  - cbn [py_len]. rewrite Hb. apply IH.
  - destruct n as [|n]; cbn [py_len]; [lia|]. rewrite Hb. specialize (IH n). lia.
Qed.

Lemma try_selectors_some page url route date sels tr info :
  fst (try_selectors page url route date sels tr) = Ok (Some info) ->
  trip_fields_ok date route url info.
Proof.
  revert tr. induction sels as [|sel rest IH]; intros tr H; [discriminate H|].
  simpl in H. unfold selector_step in H. run_M_in H.
  destruct (pv_query page sel) as [[|x l]|e]; run_M_in H; try (eapply IH; exact H).
  injection H as <-. unfold trip_fields_ok. simpl. repeat split; try lia.
  destruct (el_inner_text x); intros d Hd; [|discriminate].
  injection Hd as <-. apply py_take_len.
Qed.

(** Every trip record returned by [check_availability] carries the date,
    route and URL it was called with, a count of at least 1, and details of
    at most 500 characters. *)
Theorem check_availability_result_fields page url route date info :
  fst (check_availability page url route date []) = Ok (Some info) ->
  trip_fields_ok date route url info.
Proof.
  unfold check_availability, classify_loaded_page. run_M.
  destruct (pv_goto page) as [[]|e]; run_M; [|discriminate].
  destruct (pv_content page) as [c|e]; run_M; [|discriminate].
  destruct (pv_body_text page) as [t|e]; run_M; [|discriminate].
  destruct (has_indicator no_availability_indicators t); run_M; [discriminate|].
  match goal with
  | |- context [try_selectors ?p ?u ?r ?d ?s ?tr] =>
      pose proof (try_selectors_some p u r d s tr) as Hts;
      destruct (try_selectors p u r d s tr) as [[[i|]|e] tr']
  end; run_M; cbn [fst] in *.
  - intro H. injection H as <-. now apply Hts.
  - destruct (pv_query page book_selector) as [[|x l]|e]; run_M.
    + destruct (pv_query page price_selector) as [[|y m]|e]; run_M; try discriminate.
      intro H. injection H as <-. unfold trip_fields_ok; simpl; repeat split; try lia.
      intros d Hd. injection Hd as <-. simpl. lia.
    + intro H. injection H as <-. unfold trip_fields_ok; simpl; repeat split; try lia.
      intros d Hd. injection Hd as <-. simpl. lia.
    + discriminate.
  - discriminate.
Qed.

Lemma check_availability_result_fields_witness :
  trip_fields_ok "2025-03-03" "Riyadh → Qurayyat" "u"
    {| ti_date := "2025-03-03"; ti_route := "Riyadh → Qurayyat"; ti_url := "u";
       ti_count := 1; ti_details := Some "08:30 Economy 120 SAR" |}.
Proof.
  apply (check_availability_result_fields
           (page_with "08:30 Riyadh - Qurayyat" [{| el_inner_text := Ok "08:30 Economy 120 SAR" |}])).
  vm_compute. reflexivity.
Defined.


Lemma try_selectors_first page url route date pre sel post x xs tr :
  (forall s, In s pre -> query_empty page s = true) ->
  pv_query page sel = Ok (x :: xs) ->
  fst (try_selectors page url route date (pre ++ sel :: post)%list tr)
  = Ok (Some {| ti_date := date; ti_route := route; ti_url := url;
                ti_count := S (length xs);
                ti_details := match el_inner_text x with
                              | Ok text => Some (py_take 500 text)
                              | Err _ => None
                              end |}).
Proof.
  intros Hpre Hsel. revert tr. induction pre as [|s pre IH]; intro tr; simpl.
  - unfold selector_step. run_M. rewrite Hsel. run_M. reflexivity.
  - unfold selector_step at 1. run_M.
    assert (Hs : query_empty page s = true) by (apply Hpre; now left).
    unfold query_empty in Hs.
    destruct (pv_query page s) as [[|y l]|e]; run_M; try discriminate;
      apply IH; intros; apply Hpre; now right.
Qed.

(** On a page that loads and shows no unavailability indicator, the first
    trip selector with matches decides the result: their number, and the
    text of the first match cut to 500 characters (no details when that text
    cannot be read). Earlier selectors without matches are passed over. *)
Theorem check_availability_first_selector page url route date c t pre sel post x xs :
  pv_goto page = Ok tt -> pv_content page = Ok c -> pv_body_text page = Ok t ->
  has_indicator no_availability_indicators t = false ->
  trip_selectors = (pre ++ sel :: post)%list ->
  (forall s, In s pre -> query_empty page s = true) ->
  pv_query page sel = Ok (x :: xs) ->
  fst (check_availability page url route date [])
  = Ok (Some {| ti_date := date; ti_route := route; ti_url := url;
                ti_count := S (length xs);
                ti_details := match el_inner_text x with
                              | Ok text => Some (py_take 500 text)
                              | Err _ => None
                              end |}).
Proof.
  intros Hg Hc Hb Hi Hsplit Hpre Hsel.
  unfold check_availability, classify_loaded_page. run_M.
  rewrite Hg. run_M. rewrite Hc. run_M. rewrite Hb. run_M. rewrite Hi. rewrite Hsplit.
  match goal with
  | |- context [try_selectors ?p ?u ?r ?d ?s ?tr] =>
      pose proof (try_selectors_first p u r d pre sel post x xs tr Hpre Hsel) as Hts;
      destruct (try_selectors p u r d s tr) as [res tr']
  end.
  cbn [fst] in Hts. subst res. run_M. reflexivity.
Qed.

Lemma check_availability_first_selector_witness :
  fst (check_availability
         (page_with "Riyadh 08:30 - Qurayyat 14:10" [{| el_inner_text := Ok "08:30 Economy 120 SAR" |}])
         "u" "Riyadh → Qurayyat" "2025-03-03" [])
  = Ok (Some {| ti_date := "2025-03-03"; ti_route := "Riyadh → Qurayyat"; ti_url := "u";
                ti_count := 1; ti_details := Some (py_take 500 "08:30 Economy 120 SAR") |}).
Proof.
  apply (check_availability_first_selector _ _ _ _ "<html></html>" "Riyadh 08:30 - Qurayyat 14:10"
           [] ".trip-card" (tl trip_selectors) {| el_inner_text := Ok "08:30 Economy 120 SAR" |} []);
    try reflexivity.
  intros s [].
Defined.

(** When no trip selector matches, Book buttons are tried, then price
    elements, each giving a record with its fixed details text; an error
    from the Book-button query is caught and reported as no availability. *)
Theorem check_availability_fallbacks page url route date c t :
  pv_goto page = Ok tt -> pv_content page = Ok c -> pv_body_text page = Ok t ->
  has_indicator no_availability_indicators t = false ->
  (forall s, In s trip_selectors -> query_empty page s = true) ->
  (forall b bs, pv_query page book_selector = Ok (b :: bs) ->
     fst (check_availability page url route date [])
     = Ok (Some {| ti_date := date; ti_route := route; ti_url := url; ti_count := S (length bs);
                   ti_details := Some "Book buttons found - tickets likely available" |}))
  /\ (pv_query page book_selector = Ok [] ->
      forall p ps, pv_query page price_selector = Ok (p :: ps) ->
      fst (check_availability page url route date [])
      = Ok (Some {| ti_date := date; ti_route := route; ti_url := url; ti_count := S (length ps);
                    ti_details := Some "Price elements found - tickets likely available" |}))
  /\ (forall e, pv_query page book_selector = Err e ->
      fst (check_availability page url route date []) = Ok None).
Proof.
  intros Hg Hc Hb Hi Hq.
  unfold check_availability, classify_loaded_page. run_M.
  rewrite Hg. run_M. rewrite Hc. run_M. rewrite Hb. run_M. rewrite Hi.
  match goal with
  | |- context [try_selectors ?p ?u ?r ?d ?s ?tr] =>
      pose proof (try_selectors_none p u r d s tr Hq) as Hts;
      destruct (try_selectors p u r d s tr) as [res tr']
  end.
  cbn [fst] in Hts. subst res. run_M.
  split; [|split].
  - intros b bs Hbk. rewrite Hbk. run_M. reflexivity.
  - intros Hbk p ps Hpr. rewrite Hbk. run_M. rewrite Hpr. run_M. reflexivity.
  - intros e Hbk. rewrite Hbk. run_M. reflexivity.
Qed.

Lemma check_availability_fallbacks_witness :
  let page := {| pv_goto := Ok tt; pv_content := Ok "<html></html>";
                 pv_body_text := Ok "Select your trip";
                 pv_query := fun s => if string_dec s price_selector
                                      then Ok [{| el_inner_text := Ok "120 SAR" |}] else Ok [] |} in
  (forall b bs, pv_query page book_selector = Ok (b :: bs) ->
     fst (check_availability page "u" "Riyadh → Qurayyat" "2025-03-03" [])
     = Ok (Some {| ti_date := "2025-03-03"; ti_route := "Riyadh → Qurayyat"; ti_url := "u";
                   ti_count := S (length bs);
                   ti_details := Some "Book buttons found - tickets likely available" |}))
  /\ (pv_query page book_selector = Ok [] ->
      forall p ps, pv_query page price_selector = Ok (p :: ps) ->
      fst (check_availability page "u" "Riyadh → Qurayyat" "2025-03-03" [])
      = Ok (Some {| ti_date := "2025-03-03"; ti_route := "Riyadh → Qurayyat"; ti_url := "u";
                    ti_count := S (length ps);
                    ti_details := Some "Price elements found - tickets likely available" |}))
  /\ (forall e, pv_query page book_selector = Err e ->
      fst (check_availability page "u" "Riyadh → Qurayyat" "2025-03-03" []) = Ok None).
Proof.
  intro page.
  apply (check_availability_fallbacks page _ _ _ "<html></html>" "Select your trip");
    try reflexivity.
  intros s Hs. cbn [trip_selectors In] in Hs.
  repeat (destruct Hs as [<-|Hs]; [vm_compute; reflexivity|]). contradiction.
Defined.

Lemma selector_step_with_query_error page sel e s url route date tr :
  pv_query page sel = Err e ->
  selector_step (with_query page sel (Ok [])) url route date s tr
  = selector_step page url route date s tr.
Proof.
  intro He. unfold selector_step. run_M. cbn [with_query pv_query].
  destruct (string_dec s sel) as [->|]; [rewrite He|]; run_M; reflexivity.
Qed.

Lemma try_selectors_with_query_error page sel e sels url route date tr :
  pv_query page sel = Err e ->
  try_selectors (with_query page sel (Ok [])) url route date sels tr
  = try_selectors page url route date sels tr.
Proof.
  intro He. revert tr. induction sels as [|s rest IH]; intro tr; [reflexivity|].
  simpl. unfold bind. rewrite (selector_step_with_query_error page sel e s _ _ _ _ He).
  destruct (selector_step page url route date s tr) as [[[i|]|e'] tr']; auto.
Qed.

(** An error raised by the query of one trip selector is swallowed: the
    run is the same as if that selector had matched nothing. *)
Theorem check_availability_selector_error_skipped page sel e url route date tr :
  In sel trip_selectors -> pv_query page sel = Err e ->
  check_availability page url route date tr
  = check_availability (with_query page sel (Ok [])) url route date tr.
Proof.
  intros Hin He.
  assert (Hbk : book_selector <> sel)
    by (intro Heq; subst sel; vm_compute in Hin; intuition discriminate).
  assert (Hpr : price_selector <> sel)
    by (intro Heq; subst sel; vm_compute in Hin; intuition discriminate).
  unfold check_availability, classify_loaded_page. run_M. cbn [with_query pv_goto pv_content pv_body_text].
  destruct (pv_goto page); run_M; [|reflexivity].
  destruct (pv_content page); run_M; [|reflexivity].
  destruct (pv_body_text page) as [t|]; run_M; [|reflexivity].
  destruct (has_indicator no_availability_indicators t); run_M; [reflexivity|].
  rewrite (try_selectors_with_query_error page sel e trip_selectors _ _ _ _ He).
  match goal with
  | |- context [try_selectors ?p ?u ?r ?d ?s ?tr] =>
      destruct (try_selectors p u r d s tr) as [[[i|]|e'] tr']
  end; run_M; [reflexivity| |reflexivity].
  cbn [with_query pv_query].
  destruct (string_dec book_selector sel); [contradiction|].
  destruct (pv_query page book_selector) as [[|b l]|e']; run_M; try reflexivity.
  destruct (string_dec price_selector sel); [contradiction|]. reflexivity.
Qed.

Lemma check_availability_selector_error_skipped_witness :
  let page := with_query (page_with "Select your trip" [{| el_inner_text := Ok "08:30 Economy 120 SAR" |}])
                ".trip-card" (Err (PlaywrightError "Element is not attached to the DOM")) in
  check_availability page "u" "Riyadh → Qurayyat" "2025-03-03" []
  = check_availability (with_query page ".trip-card" (Ok []))
      "u" "Riyadh → Qurayyat" "2025-03-03" [].
Proof.
  intro page.
  apply (check_availability_selector_error_skipped _ _ (PlaywrightError "Element is not attached to the DOM")).
  - now left.
  - reflexivity.
Defined.

Lemma has_indicator_lower inds t1 t2 :
  lower t1 = lower t2 -> has_indicator inds t1 = has_indicator inds t2.
Proof.
  intro H. induction inds as [|i is IH]; simpl; [reflexivity|]. now rewrite H, IH.
Qed.

(** The unavailability indicators are looked for regardless of ASCII case:
    two body texts with the same lower-case form give the same run. *)
Theorem check_availability_case_insensitive page t1 t2 url route date tr :
  lower t1 = lower t2 ->
  check_availability (with_body page t1) url route date tr
  = check_availability (with_body page t2) url route date tr.
Proof.
  intro Hl. pose proof (has_indicator_lower no_availability_indicators t1 t2 Hl) as Hh.
  unfold check_availability, classify_loaded_page. run_M.
  cbn [with_body pv_goto pv_content pv_body_text pv_query].
  destruct (pv_goto page); run_M; [|reflexivity].
  destruct (pv_content page); run_M; [|reflexivity].
  rewrite Hh.
  destruct (has_indicator no_availability_indicators t2); run_M; [reflexivity|].
  rewrite (try_selectors_query_only (with_body page t1) (with_body page t2)
             url route date trip_selectors _ eq_refl).
  reflexivity.
Qed.

Lemma check_availability_case_insensitive_witness :
  check_availability (with_body (page_with EmptyString []) "Sold Out") "u" "Riyadh → Qurayyat" "2025-03-03" []
  = check_availability (with_body (page_with EmptyString []) "SOLD OUT") "u" "Riyadh → Qurayyat" "2025-03-03" [].
Proof. apply check_availability_case_insensitive. vm_compute. reflexivity. Defined.


Open Scope Z_scope.

Lemma list_ascii_app a b :
  list_ascii_of_string (a ++ b) = (list_ascii_of_string a ++ list_ascii_of_string b)%list.
Proof. induction a as [|c a IH]; simpl; [reflexivity | now rewrite IH]. Qed.

Lemma zpad4 y :
  list_ascii_of_string (zpad 4 y)
  = [dig (y / 10 / 10 / 10 mod 10); dig (y / 10 / 10 mod 10); dig (y / 10 mod 10); dig (y mod 10)].
Proof. reflexivity. Qed.

Lemma zpad1 y : list_ascii_of_string (zpad 1 y) = [dig (y mod 10)].
Proof. reflexivity. Qed.

Lemma zpad2 y : list_ascii_of_string (zpad 2 y) = [dig (y / 10 mod 10); dig (y mod 10)].
Proof. reflexivity. Qed.

Lemma zpad3 y :
  list_ascii_of_string (zpad 3 y) = [dig (y / 10 / 10 mod 10); dig (y / 10 mod 10); dig (y mod 10)].
Proof. reflexivity. Qed.

Lemma zpad_ascii w n : Forall (fun c => (nat_of_ascii c < 128)%nat) (list_ascii_of_string (zpad w n)).
Proof.
  unfold zpad. rewrite list_ascii_of_string_of_list_ascii. apply Forall_rev.
  revert n. induction w as [|w IH]; intro n; constructor; [|apply IH].
  pose proof (Z.mod_pos_bound n 10 ltac:(lia)).
  rewrite nat_ascii_embedding by lia. lia.
Qed.

(** The characters of an ASCII string are its bytes. *)
Lemma py_chars_ascii s :
  Forall (fun c => (nat_of_ascii c < 128)%nat) (list_ascii_of_string s) ->
  py_chars s = map (fun c => String c EmptyString) (list_ascii_of_string s).
Proof.
  induction s as [|b s IH]; intro H; [reflexivity|].
  inversion H as [|? ? _ Hs]; subst. cbn [py_chars list_ascii_of_string map].
  rewrite (IH Hs). destruct s as [|c s]; [reflexivity|].
  inversion Hs as [|? ? Hc _]; subst. cbn [list_ascii_of_string map].
  unfold is_cont. replace ((128 <=? nat_of_ascii c)%nat) with false
    by (symmetry; apply Nat.leb_gt; lia).
  reflexivity.
Qed.

Lemma strftime_ascii dt :
  Forall (fun c => (nat_of_ascii c < 128)%nat) (list_ascii_of_string (strftime dt)).
Proof.
  unfold strftime, year_str. rewrite !list_ascii_app.
  assert (Hd : Forall (fun c => (nat_of_ascii c < 128)%nat) (list_ascii_of_string "-"))
    by (constructor; [apply Nat.ltb_lt; reflexivity | constructor]).
  repeat (apply Forall_app; split); try exact Hd; try apply zpad_ascii.
  destruct (year dt <? 10); [apply zpad_ascii|].
  destruct (year dt <? 100); [apply zpad_ascii|].
  destruct (year dt <? 1000); apply zpad_ascii.
Qed.

Lemma decimal_dig k : 0 <= k <= 9 -> decimal (String (dig k) EmptyString) = Some k.
Proof.
  intro Hk. unfold decimal, ord, dig. cbn [list_ascii_of_string].
  rewrite nat_ascii_embedding by lia.
  replace (Z.of_nat (48 + Z.to_nat k)) with (48 + k) by lia.
  unfold nd_zeros. cbn [find].
  replace ((48 <=? 48 + k) && (48 + k <=? 48 + 9)) with true
    by (symmetry; apply andb_true_iff; split; apply Z.leb_le; lia).
  f_equal. lia.
Qed.

Lemma match_Y_zpad y rest :
  0 <= y <= 9999 ->
  match_Y (map (fun c => String c EmptyString) (list_ascii_of_string (zpad 4 y)) ++ rest)
  = Some (y, rest).
Proof.
  intro Hy. rewrite zpad4. cbn [map app]. unfold match_Y.
  rewrite !decimal_dig by (match goal with |- context [?a mod 10] => pose proof (Z.mod_pos_bound a 10 ltac:(lia)) end; lia).
  f_equal. f_equal.
  pose proof (Z.div_mod y 10 ltac:(lia)). pose proof (Z.mod_pos_bound y 10 ltac:(lia)).
  pose proof (Z.div_mod (y / 10) 10 ltac:(lia)). pose proof (Z.mod_pos_bound (y / 10) 10 ltac:(lia)).
  pose proof (Z.div_mod (y / 10 / 10) 10 ltac:(lia)).
  pose proof (Z.mod_pos_bound (y / 10 / 10) 10 ltac:(lia)).
  pose proof (Z.div_mod (y / 10 / 10 / 10) 10 ltac:(lia)).
  pose proof (Z.mod_pos_bound (y / 10 / 10 / 10) 10 ltac:(lia)).
  lia.
Qed.

(** A dash among the first four characters stops [\d\d\d\d]. *)
Lemma match_Y_dash a b c r :
  match_Y (a :: "-" :: r) = None /\ match_Y (a :: b :: "-" :: r) = None
  /\ match_Y (a :: b :: c :: "-" :: r) = None.
Proof.
  unfold match_Y. split; [|split].
  - destruct r as [|x [|x' r]]; try reflexivity. destruct (decimal a); reflexivity.
  - destruct r as [|x r]; try reflexivity. destruct (decimal a), (decimal b); reflexivity.
  - destruct (decimal a), (decimal b), (decimal c); reflexivity.
Qed.

Lemma match_m_zpad m c rest :
  1 <= m <= 12 ->
  match_m (map (fun c => String c EmptyString) (list_ascii_of_string (zpad 2 m)) ++ c :: rest)
  = Some (m, c :: rest).
Proof.
  intro Hm.
  assert (m = 1 \/ m = 2 \/ m = 3 \/ m = 4 \/ m = 5 \/ m = 6 \/ m = 7 \/ m = 8 \/ m = 9
          \/ m = 10 \/ m = 11 \/ m = 12) as Hc by lia.
  repeat destruct Hc as [->|Hc]; try (subst m); reflexivity.
Qed.

Lemma match_d_zpad d :
  1 <= d <= 31 ->
  match_d (map (fun c => String c EmptyString) (list_ascii_of_string (zpad 2 d))) = Some (d, []).
Proof.
  intro Hd.
  assert (exists k, d = Z.of_nat k /\ (1 <= k <= 31)%nat) as [k [-> Hk]]
    by (exists (Z.to_nat d); lia).
  do 32 (destruct k as [|k]; [try lia; reflexivity|]). lia.
Qed.

Lemma match_Y_short y m d :
  0 <= y < 1000 ->
  match_Y (map (fun c => String c EmptyString) (list_ascii_of_string (strftime (mk_datetime y m d))))
  = None.
Proof.
  intro Hy. unfold strftime, year_str. cbn [year month day].
  rewrite !list_ascii_app.
  destruct (Z.ltb_spec y 10).
  { rewrite zpad1. cbn [list_ascii_of_string app map]. apply (match_Y_dash _ "0" "0"). }
  destruct (Z.ltb_spec y 100).
  { rewrite zpad2. cbn [list_ascii_of_string app map]. apply (match_Y_dash _ _ "0"). }
  destruct (Z.ltb_spec y 1000); [|lia].
  rewrite zpad3. cbn [list_ascii_of_string app map]. apply match_Y_dash.
Qed.

(** Parsing the [%Y-%m-%d] rendering of a valid date gives the date back
    when its year has four digits; a year below 1000 is rendered without
    padding and the rendering does not match [%Y]. *)
Theorem strptime_strftime dt : valid_dt dt ->
  strptime (strftime dt)
  = if 1000 <=? year dt then Ok dt
    else Err (ValueError ("time data '" ++ strftime dt ++ "' does not match format '%Y-%m-%d'")).
Proof.
  destruct dt as [y m d]. unfold valid_dt, MINYEAR, MAXYEAR. cbn [year month day].
  intros [Hy [Hm Hd]]. pose proof (dim_range y m).
  unfold strptime. cbv zeta. rewrite (py_chars_ascii _ (strftime_ascii _)).
  destruct (Z.leb_spec 1000 y).
  - assert (E : list_ascii_of_string (strftime (mk_datetime y m d))
                = (list_ascii_of_string (zpad 4 y) ++ "-"%char :: list_ascii_of_string (zpad 2 m)
                   ++ "-"%char :: list_ascii_of_string (zpad 2 d))%list).
    { unfold strftime, year_str. cbn [year month day].
      destruct (Z.ltb_spec y 10); [lia|]. destruct (Z.ltb_spec y 100); [lia|].
      destruct (Z.ltb_spec y 1000); [lia|].
      rewrite !list_ascii_app. reflexivity. }
    rewrite E, map_app. cbn [map]. rewrite match_Y_zpad by lia.
    cbv beta iota delta [negb is_char String.eqb Ascii.eqb Bool.eqb].
    rewrite map_app. cbn [map]. rewrite match_m_zpad by lia.
    cbv beta iota delta [negb is_char String.eqb Ascii.eqb Bool.eqb].
    rewrite (match_d_zpad d) by lia. unfold MINYEAR.
    destruct (Z.ltb_spec y 1); [lia|].
    destruct (Z.ltb_spec (days_in_month y m) d); [lia|].
    reflexivity.
  - rewrite match_Y_short by lia. reflexivity.
Qed.

Lemma strptime_strftime_witness :
  strptime (strftime (mk_datetime 2024 2 29)) = Ok (mk_datetime 2024 2 29)
  /\ strptime (strftime (mk_datetime 999 1 5))
     = Err (ValueError "time data '999-01-05' does not match format '%Y-%m-%d'").
Proof.
  split.
  - refine (strptime_strftime (mk_datetime 2024 2 29) _). unfold valid_dt, MINYEAR, MAXYEAR. cbn. lia.
  - refine (strptime_strftime (mk_datetime 999 1 5) _). unfold valid_dt, MINYEAR, MAXYEAR. cbn. lia.
Defined.


Close Scope Z_scope.

Open Scope Z_scope.

Lemma days_before_month_succ y m :
  1 <= m -> days_before_month y (m + 1) = days_before_month y m + days_in_month y m.
Proof.
  intro Hm. unfold days_before_month.
  replace (Z.to_nat (m + 1 - 1)) with (S (Z.to_nat (m - 1))) by lia.
  cbn [days_before_month_aux]. f_equal. f_equal. lia.
Qed.

Lemma days_before_year_succ y :
  1 <= y ->
  days_before_year (y + 1) = days_before_year y + (if is_leap y then 366 else 365).
Proof.
  intro Hy. unfold days_before_year, is_leap.
  replace (y + 1 - 1) with y by lia.
  pose proof (Z.div_mod y 4 ltac:(lia)). pose proof (Z.mod_pos_bound y 4 ltac:(lia)).
  pose proof (Z.div_mod y 100 ltac:(lia)). pose proof (Z.mod_pos_bound y 100 ltac:(lia)).
  pose proof (Z.div_mod y 400 ltac:(lia)). pose proof (Z.mod_pos_bound y 400 ltac:(lia)).
  pose proof (Z.div_mod (y - 1) 4 ltac:(lia)). pose proof (Z.mod_pos_bound (y - 1) 4 ltac:(lia)).
  pose proof (Z.div_mod (y - 1) 100 ltac:(lia)). pose proof (Z.mod_pos_bound (y - 1) 100 ltac:(lia)).
  pose proof (Z.div_mod (y - 1) 400 ltac:(lia)). pose proof (Z.mod_pos_bound (y - 1) 400 ltac:(lia)).
  destruct (Z.eqb_spec (y mod 4) 0), (Z.eqb_spec (y mod 100) 0), (Z.eqb_spec (y mod 400) 0);
    cbn [andb orb negb]; lia.
Qed.

Lemma days_before_month_12 y : days_before_month y 12 = if is_leap y then 335 else 334.
Proof.
  unfold days_before_month. change (Z.to_nat (12 - 1)) with 11%nat.
  cbn [days_before_month_aux]. unfold days_in_month.
  destruct (is_leap y); reflexivity.
Qed.

(** Adding one day to a valid date that does not overflow increases its
    ordinal by exactly one. *)
Theorem add_one_day_toordinal cur next :
  valid_dt cur -> add_one_day cur = Ok next -> toordinal next = toordinal cur + 1.
Proof.
  destruct cur as [y m d]. unfold valid_dt, add_one_day, toordinal, MINYEAR, MAXYEAR.
  cbn [year month day]. intros [Hy [Hm Hd]].
  destruct (Z.leb_spec (d + 1) (days_in_month y m)).
  - intro Hn. injection Hn as <-. cbn [year month day]. lia.
  - destruct (Z.leb_spec (m + 1) 12).
    + intro Hn. injection Hn as <-. cbn [year month day].
      rewrite days_before_month_succ by lia. lia.
    + destruct (Z.leb_spec (y + 1) 9999); [|discriminate].
      intro Hn. injection Hn as <-. cbn [year month day].
      assert (m = 12) by lia. subst m.
      assert (Hd31 : days_in_month y 12 = 31) by reflexivity.
      rewrite days_before_year_succ by lia.
      rewrite days_before_month_12.
      unfold days_before_month. change (Z.to_nat (1 - 1)) with 0%nat. cbn [days_before_month_aux].
      destruct (is_leap y); lia.
Qed.

Lemma gen_loop_length fuel cur e acc l :
  valid_dt cur -> valid_dt e -> e <> dt_max ->
  (Z.to_nat (dt_key e - dt_key cur + 1) <= fuel)%nat ->
  dt_le cur e = true -> gen_loop fuel cur e acc = Ok l ->
  Z.of_nat (length l) = Z.of_nat (length acc) + toordinal e - toordinal cur + 1.
Proof.
  revert cur acc. induction fuel as [|fuel IH]; intros cur acc Hc He Hne Hf Hle.
  - pose proof (valid_le_key _ _ Hc He Hle). lia.
  - cbn [gen_loop]. rewrite Hle.
    assert (Hcm : cur <> dt_max).
    { intro Heq. subst cur. apply Hne. pose proof (valid_le_max e He).
      dt_arith. simpl in *. apply dt_ext; simpl; lia. }
    destruct (add_one_day_spec cur Hc Hcm) as [next [Hn [Hvn [Hlt [Hkey Hbetween]]]]].
    rewrite Hn. pose proof (add_one_day_toordinal cur next Hc Hn) as Hord.
    destruct (datetime_eq_dec cur e) as [<-|Hce].
    + assert (Hstop : gen_loop fuel next cur (acc ++ [strftime cur])%list
                      = Ok (acc ++ [strftime cur])%list)
        by (destruct fuel; cbn [gen_loop]; [reflexivity | now rewrite Hlt]).
      rewrite Hstop. intro Hl. injection Hl as <-.
      rewrite length_app. simpl. lia.
    + assert (Hne' : dt_le e cur = false).
      { destruct (dt_le e cur) eqn:E; [|reflexivity]. exfalso. apply Hce.
        dt_arith. apply dt_ext; lia. }
      intro Hl. pose proof (Hbetween e He Hne') as Hnext.
      rewrite (IH next _ Hvn He Hne ltac:(lia) Hnext Hl).
      rewrite length_app. simpl. lia.
Qed.

(** When the start date is not after the end date, and the end date is
    not the last representable day, [generate_dates] returns
    end - start + 1 dates. *)
Theorem generate_dates_count s e start end_ :
  strptime s = Ok start -> strptime e = Ok end_ -> end_ <> dt_max ->
  dt_le start end_ = true ->
  exists l, generate_dates s e = Ok l
    /\ Z.of_nat (length l) = toordinal end_ - toordinal start + 1.
Proof.
  intros Hs He Hne Hle.
  unfold generate_dates. rewrite Hs, He.
  destruct (gen_loop (loop_bound start end_) start end_ []) as [l|err] eqn:Hrun.
  - exists l. split; [reflexivity|].
    rewrite (gen_loop_length _ _ _ _ _ (strptime_valid _ _ Hs) (strptime_valid _ _ He)
               Hne (Nat.le_refl _) Hle Hrun).
    simpl. lia.
  - destruct (gen_loop_spec (loop_bound start end_) start end_ []
                (strptime_valid _ _ Hs) (strptime_valid _ _ He) Hne (Nat.le_refl _))
      as [L [Hok _]].
    congruence.
Qed.

Lemma generate_dates_count_witness :
  exists l, generate_dates "2024-02-27" "2024-03-02" = Ok l
    /\ Z.of_nat (length l) = toordinal (mk_datetime 2024 3 2) - toordinal (mk_datetime 2024 2 27) + 1.
Proof.
  apply (generate_dates_count _ _ (mk_datetime 2024 2 27) (mk_datetime 2024 3 2));
    [vm_compute; reflexivity | vm_compute; reflexivity | unfold dt_max; discriminate
    | vm_compute; reflexivity].
Defined.

Lemma add_one_day_toordinal_witness :
  toordinal (mk_datetime 2025 1 1) = toordinal (mk_datetime 2024 12 31) + 1.
Proof.
  apply add_one_day_toordinal;
    [unfold valid_dt, MINYEAR, MAXYEAR; cbn; lia | vm_compute; reflexivity].
Defined.


Close Scope Z_scope.

Lemma smtp_ports_app a b : smtp_ports (a ++ b) = (smtp_ports a ++ smtp_ports b)%list.
Proof. induction a as [|[] a IH]; simpl; f_equal; auto. Qed.

Lemma smtp_ports_no_smtp evs : Forall no_smtp evs -> smtp_ports evs = [].
Proof. induction 1 as [|[] evs H _ IH]; simpl in *; tauto. Qed.

Lemma scan_all_no_smtp web : emits_only no_smtp (scan_all web).
Proof.
  assert (Hsel : forall page url route date sel,
             emits_only no_smtp (selector_step page url route date sel))
    by (intros; unfold selector_step; emits_steps; simpl; auto).
  assert (Hts : forall page url route date sels,
             emits_only no_smtp (try_selectors page url route date sels))
    by (induction sels; simpl; emits_steps; auto).
  assert (Hcl : forall page url route date,
             emits_only no_smtp (classify_loaded_page page url route date))
    by (intros; unfold classify_loaded_page; emits_steps; try apply Hts; simpl; auto).
  assert (Hca : forall page url route date,
             emits_only no_smtp (check_availability page url route date))
    by (intros; unfold check_availability, page_goto; emits_steps; try apply Hcl; simpl; auto).
  assert (Hsd : forall rc dates acc, emits_only no_smtp (scan_dates web rc dates acc)).
  { intros rc dates. induction dates as [|d ds IH]; intro acc; simpl; emits_steps;
      try apply Hca; try apply IH; simpl; auto. }
  unfold scan_all, scan_route. emits_steps; try apply Hsd; simpl; auto.
Qed.

Lemma print_trips_lines trips tr :
  print_trips trips tr = (Ok tt, (tr ++ flat_map trip_lines trips)%list).
Proof.
  revert tr. induction trips as [|t ts IH]; intro tr; simpl.
  - now rewrite app_nil_r.
  - run_M. destruct (ti_details t); run_M; rewrite IH; unfold trip_lines;
      rewrite <- !app_assoc; reflexivity.
Qed.

(** [send_email] opens an SMTP session on port 465, and one on port 587
    only when the first fails; without credentials it opens none. When the
    first session succeeds the last line printed is the success message
    naming the recipient (NOTIFY_EMAIL, or else SENDER_EMAIL). *)
Theorem send_email_connections env smtp trips :
  smtp_ports (snd (send_email env smtp trips []))
  = (if truthy (SENDER_EMAIL env) && truthy (SENDER_PASSWORD env)
     then match ssl_session smtp with Ok _ => [465] | Err _ => [465; 587] end
     else [])%nat
  /\ (truthy (SENDER_EMAIL env) = true -> truthy (SENDER_PASSWORD env) = true ->
      ssl_session smtp = Ok tt ->
      last (snd (send_email env smtp trips [])) (EPrint EmptyString)
      = EPrint ("✅ Email sent successfully to "
                ++ opt_str (match NOTIFY_EMAIL env with
                            | Some v => Some v
                            | None => SENDER_EMAIL env
                            end))).
Proof.
  unfold send_email. cbv zeta.
  destruct (truthy (SENDER_EMAIL env)), (truthy (SENDER_PASSWORD env)); cbn [negb orb andb];
    try (split; [|intros; discriminate]; run_M; rewrite print_trips_lines; cbn [snd app];
         apply smtp_ports_no_smtp; constructor; [exact I|];
         induction trips as [|t ts IH]; [constructor|]; cbn [flat_map];
         apply Forall_app; split; [|exact IH];
         unfold trip_lines; destruct (ti_details t); repeat constructor).
  run_M. destruct (ssl_session smtp) as [[]|e1]; run_M;
    [|destruct (tls_session smtp) as [[]|e2]; run_M].
  - split; [reflexivity|]. intros _ _ _. reflexivity.
  - split; [reflexivity|]. intros _ _ H. discriminate H.
  - split; [reflexivity|]. intros _ _ H. discriminate H.
Qed.

(** Without credentials, [send_email] prints the route, date and URL of
    every trip, and its details cut to 200 characters when it has some. *)
Theorem send_email_without_credentials env smtp trips t :
  (truthy (SENDER_EMAIL env) = false \/ truthy (SENDER_PASSWORD env) = false) ->
  In t trips ->
  In (EPrint ("   Route: " ++ ti_route t)) (snd (send_email env smtp trips []))
  /\ In (EPrint ("   Date: " ++ ti_date t)) (snd (send_email env smtp trips []))
  /\ In (EPrint ("   URL: " ++ ti_url t)) (snd (send_email env smtp trips []))
  /\ (forall det, ti_details t = Some det ->
        In (EPrint ("   Details: " ++ py_take 200 det)) (snd (send_email env smtp trips []))).
Proof.
  intros Hc Hin.
  assert (Hneg : negb (truthy (SENDER_EMAIL env)) || negb (truthy (SENDER_PASSWORD env)) = true)
    by (destruct Hc as [-> | ->]; [reflexivity | apply orb_true_r]).
  unfold send_email. cbv zeta. rewrite Hneg. run_M. rewrite print_trips_lines. cbn [snd app].
  assert (Hl : forall ev, In ev (trip_lines t) ->
                 In ev (EPrint "Email credentials not configured. Printing results instead:"
                        :: flat_map trip_lines trips))
    by (intros ev Hev; right; apply in_flat_map; eauto).
  unfold trip_lines in Hl.
  repeat split; try (apply Hl; simpl; tauto).
  intros det Hd. apply Hl. rewrite Hd. apply in_or_app. right. now left.
Qed.

(** [main] reaches the SMTP server only when trips were found, and then
    exactly as [send_email] does on them; it prints the no-tickets line when
    nothing was found and the count line otherwise. *)
Theorem main_email_only_when_found web env smtp started finished :
  smtp_ports (snd (main web env smtp started finished []))
  = match found_trips web with
    | [] => []
    | _ :: _ => smtp_ports (snd (send_email env smtp (found_trips web) []))
    end
  /\ (found_trips web = [] ->
      In (EPrint (nl ++ "😔 No tickets available at this time."))
         (snd (main web env smtp started finished [])))
  /\ (found_trips web <> [] ->
      In (EPrint (nl ++ "🎉 Found " ++ str_nat (length (found_trips web)) ++ " available trip(s)!"))
         (snd (main web env smtp started finished []))).
Proof.
  destruct (scan_all_run web) as [evs [Hs _]].
  destruct (scan_all_no_smtp web) as [res [evs' [Hs' HF]]].
  assert (evs' = evs) as ->.
  { pose proof (f_equal snd (eq_trans (eq_sym (Hs [])) (Hs' []))) as E.
    cbn [snd app] in E. symmetry. exact E. }
  pose proof (smtp_ports_no_smtp _ HF) as Hp.
  unfold main, found_trips. run_M. rewrite Hs.
  destruct (flat_map (fun p => option_list (classify_date web (fst p) (snd p))) all_dates)
    as [|t ts]; run_M.
  - cbn [snd]. rewrite !smtp_ports_app, Hp.
    split; [cbn [smtp_ports app]; rewrite ?app_nil_r; reflexivity|].
    split; [|intro H; contradiction]. intros _.
    apply in_or_app. left. apply in_or_app. right. now left.
  - destruct (send_email_run env smtp (t :: ts)) as [evs_m [Hm _]].
    rewrite !Hm. run_M. cbn [snd]. rewrite !smtp_ports_app, Hp.
    split; [cbn [smtp_ports app]; rewrite ?app_nil_r; reflexivity|].
    split; [intro H; discriminate H|]. intros _.
    apply in_or_app. left. apply in_or_app. left. apply in_or_app. right. now left.
Qed.

Lemma send_email_without_credentials_witness :
  let t := {| ti_date := "2025-03-03"; ti_route := "Riyadh → Qurayyat"; ti_url := "u";
              ti_count := 2; ti_details := Some "08:30 Economy 120 SAR" |} in
  let env := {| SENDER_EMAIL := Some "me@example.com"; SENDER_PASSWORD := None;
                NOTIFY_EMAIL := None |} in
  let smtp := {| ssl_session := Ok tt; tls_session := Ok tt |} in
  In (EPrint ("   Route: " ++ ti_route t)) (snd (send_email env smtp [t] []))
  /\ In (EPrint ("   Date: " ++ ti_date t)) (snd (send_email env smtp [t] []))
  /\ In (EPrint ("   URL: " ++ ti_url t)) (snd (send_email env smtp [t] []))
  /\ (forall det, ti_details t = Some det ->
        In (EPrint ("   Details: " ++ py_take 200 det)) (snd (send_email env smtp [t] []))).
Proof.
  intros t env smtp.
  apply send_email_without_credentials; [right; reflexivity | left; reflexivity].
Defined.


Lemma dict_set_keys_in d k v : In k (map fst d) -> map fst (dict_set d k v) = map fst d.
Proof.
  induction d as [|[k' v'] r IH]; intro H; [destruct H|].
  cbn [dict_set]. destruct (string_dec k k') as [->|Hne]; [reflexivity|].
  cbn [map fst] in *. f_equal. apply IH. destruct H as [->|H]; [congruence|exact H].
Qed.

Lemma dict_set_keys_new d k v :
  ~ In k (map fst d) -> map fst (dict_set d k v) = (map fst d ++ [k])%list.
Proof.
  induction d as [|[k' v'] r IH]; intro H; [reflexivity|].
  cbn [dict_set]. destruct (string_dec k k') as [->|Hne].
  - exfalso. apply H. now left.
  - cbn [map fst app] in *. f_equal. apply IH. intro Hi. apply H. now right.
Qed.

Lemma dict_set_ok d k v : dict_ok d -> v <> EmptyString -> dict_ok (dict_set d k v).
Proof.
  intros [Hnd Hv] Hne. split.
  - destruct (in_dec string_dec k (map fst d)) as [Hi|Hn].
    + rewrite dict_set_keys_in by exact Hi. exact Hnd.
    + rewrite dict_set_keys_new by exact Hn.
      apply NoDup_app; [exact Hnd | constructor; [intros []|constructor] |].
      intros x Hx [<-|[]]. contradiction.
  - clear Hnd. induction d as [|[k' v'] r IH]; cbn [dict_set].
    + constructor; [exact Hne | constructor].
    + inversion Hv as [|? ? Hv1 Hr]; subst.
      destruct (string_dec k k'); constructor; auto.
Qed.

Lemma dict_get_set d k v : dict_get (dict_set d k v) k = Some v.
Proof.
  induction d as [|[k' v'] r IH]; simpl.
  - destruct (string_dec k k); congruence.
  - destruct (string_dec k k') as [->|Hne]; simpl.
    + destruct (string_dec k' k'); congruence.
    + destruct (string_dec k k'); [contradiction | exact IH].
Qed.

Lemma collect_options_inv opts : forall d tr d' tr',
  dict_ok d -> collect_options opts d tr = (Ok d', tr') -> dict_ok d'.
Proof.
  induction opts as [|o r IH]; intros d tr d' tr' Hd H; cbn [collect_options] in H.
  - unfold ret in H. injection H as <- _. exact Hd.
  - run_M_in H.
    destruct (opt_get_attribute_value o) as [value|e]; [|discriminate].
    destruct (opt_inner_text o) as [text|e]; [|discriminate].
    eapply IH; [|exact H].
    destruct value as [[|c v]|]; destruct text; try exact Hd.
    apply dict_set_ok; [exact Hd | discriminate].
Qed.

Lemma collect_selects_inv sels : forall d tr d' tr',
  dict_ok d -> collect_selects sels d tr = (Ok d', tr') -> dict_ok d'.
Proof.
  induction sels as [|s r IH]; intros d tr d' tr' Hd H; cbn [collect_selects] in H.
  - unfold ret in H. injection H as <- _. exact Hd.
  - run_M_in H.
    destruct (sel_query_options s) as [opts|e]; [|discriminate].
    destruct (collect_options opts d (tr ++ [EQuery "option"])%list) as [[d1|e] tr1] eqn:Hc;
      [|discriminate].
    eapply IH; [|exact H]. eapply collect_options_inv; eassumption.
Qed.

Lemma collect_options_fail opts o : forall d tr,
  In o opts ->
  (exists e, opt_get_attribute_value o = Err e) \/ (exists e, opt_inner_text o = Err e) ->
  exists e tr', collect_options opts d tr = (Err e, tr').
Proof.
  induction opts as [|o' r IH]; intros d tr Hin Hr; [destruct Hin|].
  cbn [collect_options]. run_M.
  destruct (opt_get_attribute_value o') as [value|e] eqn:Hv; [|now exists e, tr].
  destruct (opt_inner_text o') as [text|e] eqn:Ht; [|now exists e, tr].
  destruct Hin as [<-|Hin].
  - exfalso. destruct Hr as [[e He]|[e He]]; congruence.
  - apply IH; assumption.
Qed.

Lemma collect_selects_fail sels s : forall d tr,
  In s sels -> select_raises s ->
  exists e tr', collect_selects sels d tr = (Err e, tr').
Proof.
  induction sels as [|s' r IH]; intros d tr Hin Hr; [destruct Hin|].
  cbn [collect_selects]. run_M.
  destruct (sel_query_options s') as [opts|e] eqn:Hq; [|now exists e, (tr ++ [EQuery "option"])%list].
  destruct (collect_options opts d (tr ++ [EQuery "option"])%list) as [[d1|e] tr1] eqn:Hc;
    [|now exists e, tr1].
  destruct Hin as [<-|Hin].
  - exfalso. destruct Hr as [[e He]|[opts' [o [Hq' [Ho Hr]]]]]; [congruence|].
    rewrite Hq in Hq'. injection Hq' as <-.
    destruct (collect_options_fail opts o d (tr ++ [EQuery "option"])%list Ho Hr) as [e [tr' He]].
    congruence.
  - apply IH; assumption.
Qed.

Lemma collect_options_app a b : forall d tr,
  collect_options (a ++ b)%list d tr = bind (collect_options a d) (collect_options b) tr.
Proof.
  induction a as [|o r IH]; intros d tr; cbn [collect_options app].
  - reflexivity.
  - run_M.
    destruct (opt_get_attribute_value o); [|reflexivity].
    destruct (opt_inner_text o); [|reflexivity].
    apply IH.
Qed.

Lemma collect_selects_app a b : forall d tr,
  collect_selects (a ++ b)%list d tr = bind (collect_selects a d) (collect_selects b) tr.
Proof.
  induction a as [|s r IH]; intros d tr; cbn [collect_selects app].
  - reflexivity.
  - run_M.
    destruct (sel_query_options s); [|reflexivity].
    destruct (collect_options _ d _) as [[d1|e] tr1]; [|reflexivity].
    apply IH.
Qed.

Lemma collect_options_ok opts : forall d tr,
  Forall option_ok opts -> exists d' tr', collect_options opts d tr = (Ok d', tr').
Proof.
  induction opts as [|o r IH]; intros d tr Hok.
  - now exists d, tr.
  - inversion Hok as [|? ? [[value Hv] [text Ht]] Hr]; subst.
    cbn [collect_options]. run_M. rewrite Hv, Ht. apply IH, Hr.
Qed.

Lemma collect_selects_ok sels : forall d tr,
  Forall select_ok sels -> exists d' tr', collect_selects sels d tr = (Ok d', tr').
Proof.
  induction sels as [|s r IH]; intros d tr Hok.
  - now exists d, tr.
  - inversion Hok as [|? ? [opts [Hq Ho]] Hr]; subst.
    cbn [collect_selects]. run_M. rewrite Hq.
    destruct (collect_options_ok opts d (tr ++ [EQuery "option"])%list Ho) as [d1 [tr1 Hc]].
    rewrite Hc. apply IH, Hr.
Qed.

Lemma dict_set_cons d k v : exists kv r, dict_set d k v = kv :: r.
Proof. destruct d as [|[k' v'] r]; simpl; [eauto|destruct (string_dec k k'); eauto]. Qed.

Lemma discover_last_option json_dumps page pre s opts o v t :
  bk_goto page = Ok tt ->
  bk_query_selects page = Ok (pre ++ [s])%list ->
  Forall select_ok pre ->
  sel_query_options s = Ok (opts ++ [o])%list ->
  Forall option_ok opts ->
  opt_get_attribute_value o = Ok (Some v) -> v <> EmptyString ->
  opt_inner_text o = Ok t -> t <> EmptyString ->
  exists d, fst (discover_station_codes json_dumps page []) = Ok d
            /\ dict_get d (strip t) = Some v.
Proof.
  intros Hg Hs Hpre Hq Hopts Hv Hvne Ht Htne.
  unfold discover_station_codes. run_M. rewrite Hg, Hs. run_M.
  rewrite collect_selects_app. unfold bind at 1.
  match goal with |- context [collect_selects pre [] ?tr] =>
    destruct (collect_selects_ok pre [] tr Hpre) as [d1 [tr1 Hc1]] end.
  rewrite Hc1. cbn [collect_selects]. run_M. rewrite Hq.
  rewrite collect_options_app. unfold bind at 1.
  destruct (collect_options_ok opts d1 (tr1 ++ [EQuery "option"])%list Hopts) as [d2 [tr2 Hc2]].
  rewrite Hc2. cbn [collect_options]. run_M. rewrite Hv, Ht.
  destruct v as [|c v]; [contradiction|]. destruct t as [|c' t]; [contradiction|].
  cbv beta iota.
  destruct (dict_set_cons d2 (strip (String c' t)) (String c v)) as [kv [r Hd]].
  rewrite Hd. run_M. eexists. split; [reflexivity|].
  rewrite <- Hd. apply dict_get_set.
Qed.

Lemma drop_spaces_all l : Forall (fun ch => is_space_char ch = true) l -> drop_spaces l = [].
Proof.
  induction 1 as [|ch l Hc _ IH]; [reflexivity|]. cbn [drop_spaces]. now rewrite Hc.
Qed.

Lemma strip_spaces t : Forall (fun ch => is_space_char ch = true) (py_chars t) -> strip t = EmptyString.
Proof.
  intro H. unfold strip. now rewrite (drop_spaces_all _ H).
Qed.

(** [discover_station_codes] never raises, and the dict it returns has no
    key twice and no empty value. *)
Theorem discover_station_codes_dict_ok json_dumps page :
  exists d, fst (discover_station_codes json_dumps page []) = Ok d /\ dict_ok d.
Proof.
  assert (H0 : dict_ok []) by (split; constructor).
  unfold discover_station_codes. run_M.
  destruct (bk_goto page) as [[]|e]; run_M; [|eexists; split; [reflexivity|exact H0]].
  destruct (bk_query_selects page) as [sels|e]; run_M; [|eexists; split; [reflexivity|exact H0]].
  destruct (collect_selects sels [] _) as [[d|e] tr] eqn:Hc; run_M;
    [|eexists; split; [reflexivity|exact H0]].
  assert (Hd : dict_ok d) by (eapply collect_selects_inv; [exact H0|exact Hc]).
  destruct d as [|kv r]; run_M; eexists; split; (reflexivity || exact Hd).
Qed.

(** An error raised while reading any select or option discards every code
    collected before it: the result is the empty dict and the last line
    printed reports the error. *)
Theorem discover_station_codes_failure_discards json_dumps page sels s :
  bk_goto page = Ok tt -> bk_query_selects page = Ok sels ->
  In s sels -> select_raises s ->
  fst (discover_station_codes json_dumps page []) = Ok []
  /\ exists e, last (snd (discover_station_codes json_dumps page [])) (EPrint EmptyString)
               = EPrint ("Could not discover station codes: " ++ exn_str e).
Proof.
  intros Hg Hs Hin Hr.
  unfold discover_station_codes. run_M. rewrite Hg, Hs. run_M.
  match goal with |- context [collect_selects sels [] ?tr] =>
    destruct (collect_selects_fail sels s [] tr Hin Hr) as [e [tr' Hc]] end.
  rewrite Hc. run_M. split; [reflexivity|]. exists e. cbn [snd]. apply last_last.
Qed.

(** The last option read decides the value stored under its stripped label,
    over any earlier option with the same label. *)
Theorem discover_station_codes_last_wins json_dumps page pre s opts o v t :
  bk_goto page = Ok tt ->
  bk_query_selects page = Ok (pre ++ [s])%list ->
  Forall select_ok pre ->
  sel_query_options s = Ok (opts ++ [o])%list ->
  Forall option_ok opts ->
  opt_get_attribute_value o = Ok (Some v) -> v <> EmptyString ->
  opt_inner_text o = Ok t -> t <> EmptyString ->
  exists d, fst (discover_station_codes json_dumps page []) = Ok d
            /\ dict_get d (strip t) = Some v.
Proof. exact (discover_last_option json_dumps page pre s opts o v t). Qed.

(** An option whose label is made of whitespace only (characters for which
    [str.isspace] holds, U+00A0 and U+3000 among them) passes the [if value
    and text] test and is stored under the empty key. *)
Theorem discover_station_codes_blank_label json_dumps page pre s opts o v t :
  bk_goto page = Ok tt ->
  bk_query_selects page = Ok (pre ++ [s])%list ->
  Forall select_ok pre ->
  sel_query_options s = Ok (opts ++ [o])%list ->
  Forall option_ok opts ->
  opt_get_attribute_value o = Ok (Some v) -> v <> EmptyString ->
  opt_inner_text o = Ok t -> t <> EmptyString ->
  Forall (fun ch => is_space_char ch = true) (py_chars t) ->
  exists d, fst (discover_station_codes json_dumps page []) = Ok d
            /\ dict_get d EmptyString = Some v.
Proof.
  intros Hg Hs Hpre Hq Hopts Hv Hvne Ht Htne Hsp.
  rewrite <- (strip_spaces t Hsp).
  exact (discover_last_option json_dumps page pre s opts o v t Hg Hs Hpre Hq Hopts Hv Hvne Ht Htne).
Qed.

Lemma discover_station_codes_failure_discards_witness :
  let s1 := {| sel_query_options :=
                 Ok [{| opt_get_attribute_value := Ok (Some "RIY");
                        opt_inner_text := Ok "Riyadh" |}] |} in
  let s2 := {| sel_query_options := Err (PlaywrightError "Target closed") |} in
  let page := {| bk_goto := Ok tt; bk_query_selects := Ok [s1; s2] |} in
  fst (discover_station_codes (fun _ => EmptyString) page []) = Ok []
  /\ exists e, last (snd (discover_station_codes (fun _ => EmptyString) page [])) (EPrint EmptyString)
               = EPrint ("Could not discover station codes: " ++ exn_str e).
Proof.
  intros s1 s2 page.
  apply (discover_station_codes_failure_discards _ page [s1; s2] s2);
    [reflexivity | reflexivity | right; left; reflexivity | left; eexists; reflexivity].
Defined.

Lemma discover_station_codes_last_wins_witness :
  let o1 := {| opt_get_attribute_value := Ok (Some "RIY"); opt_inner_text := Ok "Riyadh" |} in
  let o2 := {| opt_get_attribute_value := Ok (Some "RYD"); opt_inner_text := Ok " Riyadh " |} in
  let s := {| sel_query_options := Ok [o1; o2] |} in
  let page := {| bk_goto := Ok tt; bk_query_selects := Ok [s] |} in
  exists d, fst (discover_station_codes (fun _ => EmptyString) page []) = Ok d
            /\ dict_get d (strip " Riyadh ") = Some "RYD".
Proof.
  intros o1 o2 s page.
  apply (discover_station_codes_last_wins _ page [] s [o1] o2);
    try reflexivity; try discriminate; repeat constructor; eexists; reflexivity.
Defined.

(** The label is U+00A0 (no-break space) followed by U+3000 (ideographic
    space). *)
Lemma discover_station_codes_blank_label_witness :
  let o := {| opt_get_attribute_value := Ok (Some "QUR"); opt_inner_text := Ok " 　" |} in
  let s := {| sel_query_options := Ok [o] |} in
  let page := {| bk_goto := Ok tt; bk_query_selects := Ok [s] |} in
  exists d, fst (discover_station_codes (fun _ => EmptyString) page []) = Ok d
            /\ dict_get d EmptyString = Some "QUR".
Proof.
  intros o s page.
  apply (discover_station_codes_blank_label _ page [] s [] o "QUR" " 　");
    try reflexivity; try discriminate; repeat constructor.
Defined.


Lemma fold_left_keys (f : string -> trip_info -> string) :
  (forall acc a b, trip_key a = trip_key b -> f acc a = f acc b) ->
  forall t1 t2 acc, map trip_key t1 = map trip_key t2 ->
  fold_left f t1 acc = fold_left f t2 acc.
Proof.
  intros Hf t1. induction t1 as [|a t1 IH]; intros [|b t2] acc H; try discriminate H.
  - reflexivity.
  - cbn [map] in H.
    pose proof (f_equal (hd (trip_key a)) H) as Hab. pose proof (f_equal (@tl _) H) as Ht.
    cbn [hd tl] in Hab, Ht. cbn [fold_left].
    rewrite (Hf acc a b Hab). apply IH, Ht.
Qed.

(** The e-mail (subject, plain text and HTML bodies) depends only on the
    number of trips and on the route, date and URL of each: the
    [details] and [count] of a trip never reach the message. *)
Theorem email_content_ignores_details trips1 trips2 :
  map trip_key trips1 = map trip_key trips2 ->
  email_subject trips1 = email_subject trips2
  /\ email_body_text trips1 = email_body_text trips2
  /\ email_body_html trips1 = email_body_html trips2.
Proof.
  intro H. split; [|split].
  - unfold email_subject. rewrite <- (length_map trip_key trips1), H, length_map. reflexivity.
  - unfold email_body_text. apply fold_left_keys; [|exact H].
    intros acc a b Hab. unfold trip_key in Hab. injection Hab as Hr Hd Hu.
    now rewrite Hr, Hd, Hu.
  - unfold email_body_html. f_equal. apply fold_left_keys; [|exact H].
    intros acc a b Hab. unfold trip_key in Hab. injection Hab as Hr Hd Hu.
    unfold html_row. now rewrite Hr, Hd, Hu.
Qed.

Lemma email_content_ignores_details_witness :
  let t1 := {| ti_date := "2025-03-03"; ti_route := "Riyadh → Qurayyat"; ti_url := "u";
               ti_count := 3; ti_details := Some "08:30 Economy 120 SAR" |} in
  let t2 := {| ti_date := "2025-03-03"; ti_route := "Riyadh → Qurayyat"; ti_url := "u";
               ti_count := 1; ti_details := None |} in
  email_subject [t1] = email_subject [t2]
  /\ email_body_text [t1] = email_body_text [t2]
  /\ email_body_html [t1] = email_body_html [t2].
Proof. intros t1 t2. apply email_content_ignores_details. reflexivity. Defined.

